(** * gcal_trisync: a shallow embedding of the reconciliation pass

    The development follows [gcal_trisync.py].  Calendar events are the
    JSON dictionaries of the Calendar API; the keys the program reads or
    writes are fields of the record [event], an absent key is [None].
    The calendar service is an external collaborator: it is a parameter
    (the record [Gateway]) and every theorem about the program holds for
    all of its behaviours.  Text is modelled on ASCII strings. *)

From Stdlib Require Import String Ascii List ZArith Bool Lia.
From stdpp Require Import base option gmap strings list pretty.

Local Open Scope string_scope.
Local Open Scope list_scope.

(** ** Strings, as Python's [str] methods on ASCII text *)

Module Str.

(** [c.lower()] on one ASCII character. *)
Definition lower_ascii (c : ascii) : ascii :=
  let n := nat_of_ascii c in
  if (65 <=? n)%nat && (n <=? 90)%nat then ascii_of_nat (n + 32) else c.

(** [s.lower()] *)
Fixpoint lower (s : string) : string :=
  match s with
  | EmptyString => EmptyString
  | String c t => String (lower_ascii c) (lower t)
  end.

(** Python's [str.isspace] on an ASCII character: TAB, LF, VT, FF, CR,
    the separators 0x1c-0x1f and the space. *)
Definition isspace (c : ascii) : bool :=
  let n := nat_of_ascii c in
  ((9 <=? n)%nat && (n <=? 13)%nat) || ((28 <=? n)%nat && (n <=? 32)%nat).

Fixpoint lstrip (s : string) : string :=
  match s with
  | EmptyString => EmptyString
  | String c t => if isspace c then lstrip t else s
  end.

Fixpoint rev_onto (s acc : string) : string :=
  match s with
  | EmptyString => acc
  | String c t => rev_onto t (String c acc)
  end.

Definition rev (s : string) : string := rev_onto s EmptyString.

Definition rstrip (s : string) : string := rev (lstrip (rev s)).

(** [s.strip()] *)
Definition strip (s : string) : string := rstrip (lstrip s).

(** [s.startswith(p)] *)
Definition startswith (s p : string) : bool := String.prefix p s.

(** [needle in hay] *)
Fixpoint contains (needle hay : string) : bool :=
  String.prefix needle hay ||
  match hay with
  | EmptyString => false
  | String _ t => contains needle t
  end.

(** [s[:n]] *)
Definition take (n : nat) (s : string) : string := String.substring 0 n s.

(** Truthiness of a string: [bool(s)]. *)
Definition truthy (s : string) : bool :=
  match s with EmptyString => false | _ => true end.

End Str.

(** ** Data model *)

(** A JSON object with string values: [start], [end] and the private
    extended properties. *)
Abbreviation sdict := (gmap string string).

Record reminders := {
  useDefault : bool;
  overrides : list (string * Z);
}.

Record extprops := {
  ep_private : option sdict;
  ep_shared : option sdict;
}.

(** An event dictionary.  [None] is an absent key.  [ev_updated] is the
    instant that [isoparse] reads from the [updated] key. *)
Record event := {
  ev_id : option string;
  ev_summary : option string;
  ev_location : option string;
  ev_description : option string;
  ev_start : option sdict;
  ev_end : option sdict;
  ev_visibility : option string;
  ev_reminders : option reminders;
  ev_eventType : option string;
  ev_updated : option Z;
  ev_extendedProperties : option extprops;
}.

Definition empty_event : event :=
  {| ev_id := None; ev_summary := None; ev_location := None;
     ev_description := None; ev_start := None; ev_end := None;
     ev_visibility := None; ev_reminders := None; ev_eventType := None;
     ev_updated := None; ev_extendedProperties := None |}.

Definition set_location (v : option string) (e : event) : event :=
  {| ev_id := ev_id e; ev_summary := ev_summary e; ev_location := v;
     ev_description := ev_description e; ev_start := ev_start e;
     ev_end := ev_end e; ev_visibility := ev_visibility e;
     ev_reminders := ev_reminders e; ev_eventType := ev_eventType e;
     ev_updated := ev_updated e;
     ev_extendedProperties := ev_extendedProperties e |}.

Definition set_description (v : option string) (e : event) : event :=
  {| ev_id := ev_id e; ev_summary := ev_summary e; ev_location := ev_location e;
     ev_description := v; ev_start := ev_start e;
     ev_end := ev_end e; ev_visibility := ev_visibility e;
     ev_reminders := ev_reminders e; ev_eventType := ev_eventType e;
     ev_updated := ev_updated e;
     ev_extendedProperties := ev_extendedProperties e |}.

Definition set_start (v : option sdict) (e : event) : event :=
  {| ev_id := ev_id e; ev_summary := ev_summary e; ev_location := ev_location e;
     ev_description := ev_description e; ev_start := v;
     ev_end := ev_end e; ev_visibility := ev_visibility e;
     ev_reminders := ev_reminders e; ev_eventType := ev_eventType e;
     ev_updated := ev_updated e;
     ev_extendedProperties := ev_extendedProperties e |}.

Definition set_end (v : option sdict) (e : event) : event :=
  {| ev_id := ev_id e; ev_summary := ev_summary e; ev_location := ev_location e;
     ev_description := ev_description e; ev_start := ev_start e;
     ev_end := v; ev_visibility := ev_visibility e;
     ev_reminders := ev_reminders e; ev_eventType := ev_eventType e;
     ev_updated := ev_updated e;
     ev_extendedProperties := ev_extendedProperties e |}.

Definition set_visibility (v : option string) (e : event) : event :=
  {| ev_id := ev_id e; ev_summary := ev_summary e; ev_location := ev_location e;
     ev_description := ev_description e; ev_start := ev_start e;
     ev_end := ev_end e; ev_visibility := v;
     ev_reminders := ev_reminders e; ev_eventType := ev_eventType e;
     ev_updated := ev_updated e;
     ev_extendedProperties := ev_extendedProperties e |}.

Definition set_extendedProperties (v : option extprops) (e : event) : event :=
  {| ev_id := ev_id e; ev_summary := ev_summary e; ev_location := ev_location e;
     ev_description := ev_description e; ev_start := ev_start e;
     ev_end := ev_end e; ev_visibility := ev_visibility e;
     ev_reminders := ev_reminders e; ev_eventType := ev_eventType e;
     ev_updated := ev_updated e;
     ev_extendedProperties := v |}.

(** One entry of [cfg['calendars']] together with the session that
    [get_service] built for it. *)
Record calendar := {
  name : string;
  calendar_id : string;
  service : string;
  copy_visibility : option string;
}.

(** The configuration dictionary; an optional key is an [option]. *)
Record config := {
  prefix_origin_in_title : option bool;
  sync_tag_in_description : option string;
  ignore_if_summary_contains : list string;
  ignore_event_types : list string;
  skip_if_title_has_known_prefix : option bool;
  sync_delete : option bool;
  default_copy_visibility : option string;
}.

(** ** Pure helpers of [gcal_trisync.py] *)

(** [canonical_event_dict(e)]: a dictionary with exactly the five keys. *)
Definition canonical_event_dict (e : event) : event :=
  {| ev_id := None;
     ev_summary := Some (default "" (ev_summary e));
     ev_location := Some (default "" (ev_location e));
     ev_description := Some (default "" (ev_description e));
     ev_start := Some (default ∅ (ev_start e));
     ev_end := Some (default ∅ (ev_end e));
     ev_visibility := None; ev_reminders := None; ev_eventType := None;
     ev_updated := None; ev_extendedProperties := None |}.

(** [get_private_meta(ev)] *)
Definition get_private_meta (ev : event) : sdict :=
  match ev_extendedProperties ev with
  | Some ep => default ∅ (ep_private ep)
  | None => ∅
  end.

(** [set_private_meta(ev, d)]: [priv.update(d)] lets [d] win. *)
Definition set_private_meta (ev : event) (d : sdict) : event :=
  let ep := default {| ep_private := None; ep_shared := None |}
                    (ev_extendedProperties ev) in
  let priv := default ∅ (ep_private ep) in
  set_extendedProperties
    (Some {| ep_private := Some (d ∪ priv); ep_shared := ep_shared ep |}) ev.

(** [title_with_origin(prefix_enabled, origin_name, title)] *)
Definition title_with_origin (prefix_enabled : bool) (origin_name title : string)
  : string :=
  if negb prefix_enabled then title
  else
    let prefix := "[" +:+ origin_name +:+ "] " in
    if Str.startswith title prefix then title else prefix +:+ title.

(** [add_sync_note(desc, note)] *)
Definition add_sync_note (desc note : string) : string :=
  if Str.truthy note && negb (Str.contains note desc) then
    if Str.truthy (Str.strip desc) then desc +:+ String "010" (String "010" note)
    else note
  else desc.

(** [should_skip_event(ev, cfg, known_prefixes)] *)
Definition should_skip_event (ev : event) (cfg : config)
    (known_prefixes : list string) : bool :=
  let title := Str.strip (default "" (ev_summary ev)) in
  if existsb (fun kw => Str.truthy kw
                        && Str.contains (Str.lower kw) (Str.lower title))
             (ignore_if_summary_contains cfg)
  then true
  else
    let ev_type := Str.strip (default "" (ev_eventType ev)) in
    if Str.truthy ev_type
       && existsb (String.eqb ev_type) (ignore_event_types cfg)
    then true
    else
      if default true (skip_if_title_has_known_prefix cfg)
         && existsb (fun px => Str.startswith title px) known_prefixes
      then true
      else false.

Definition allowed_visibility (v : string) : bool :=
  existsb (String.eqb v) ["default"; "private"; "public"; "confidential"].

(** [desired_copy_visibility_for(cal_cfg, global_cfg)] *)
Definition desired_copy_visibility_for (cal_cfg : calendar) (global_cfg : config)
  : string :=
  let v := copy_visibility cal_cfg in
  if from_option allowed_visibility false v then default "private" v
  else
    let v := default_copy_visibility global_cfg in
    if from_option allowed_visibility false v then default "private" v
    else "private".

(** ** Effects: gateway calls, exceptions and printed lines *)

(** The exceptions the program can meet. *)
Inductive exn :=
| HttpError (msg : string)
| StopIteration
| KeyError (key : string).

(** [str(e)] *)
Definition exn_str (e : exn) : string :=
  match e with
  | HttpError msg => msg
  | StopIteration => ""
  | KeyError key => "'" +:+ key +:+ "'"
  end.

(** What a run does that is visible outside: the requests sent through a
    calendar session ([svc], [calendarId], ...) and the lines printed. *)
Inductive action :=
| ListEvents (svc cal : string)
| FindByChain (svc cal chain_id : string)
| GetEvent (svc cal id : string)
| InsertEvent (svc cal : string) (body : event)
| UpdateEvent (svc cal id : string) (body : event)
| PatchEvent (svc cal id : string) (private : sdict)
| DeleteEvent (svc cal id : string)
| Stdout (line : string)
| Stderr (line : string).

(** The requests that modify a calendar. *)
Definition is_write (a : action) : bool :=
  match a with
  | InsertEvent _ _ _ | UpdateEvent _ _ _ _ | PatchEvent _ _ _ _
  | DeleteEvent _ _ _ => true
  | _ => false
  end.

Definition writes (log : list action) : list action := List.filter is_write log.

(** The calendar service: each request answers with a value or fails
    with an [HttpError] message, and moves the world of type [W]. *)
Record Gateway (W : Type) := {
  gw_list : string -> string -> W -> (string + list event) * W;
  gw_find : string -> string -> string -> W -> (string + list event) * W;
  gw_get : string -> string -> string -> W -> (string + event) * W;
  gw_insert : string -> string -> event -> W -> (string + event) * W;
  gw_update : string -> string -> string -> event -> W -> (string + event) * W;
  gw_patch : string -> string -> string -> sdict -> W -> (string + event) * W;
  gw_delete : string -> string -> string -> W -> (string + unit) * W;
}.

Arguments gw_list {W}.
Arguments gw_find {W}.
Arguments gw_get {W}.
Arguments gw_insert {W}.
Arguments gw_update {W}.
Arguments gw_patch {W}.
Arguments gw_delete {W}.

Inductive outcome (A : Type) :=
| Val (a : A)
| Exc (e : exn).

Arguments Val {A}.
Arguments Exc {A}.

(** A computation: from a world to an outcome, the next world and the
    actions performed, oldest first. *)
Definition M (W A : Type) : Type := W -> outcome A * W * list action.

Definition ret {W A} (a : A) : M W A := fun w => (Val a, w, []).

Definition raise {W A} (e : exn) : M W A := fun w => (Exc e, w, []).

Definition bind {W A B} (m : M W A) (k : A -> M W B) : M W B :=
  fun w =>
    match m w with
    | (Val a, w1, l1) =>
        match k a w1 with (r, w2, l2) => (r, w2, l1 ++ l2) end
    | (Exc e, w1, l1) => (Exc e, w1, l1)
    end.

(** [try: body / except Exception as e: handler] *)
Definition try_except {W A} (body : M W A) (handler : exn -> M W A) : M W A :=
  fun w =>
    match body w with
    | (Val a, w1, l1) => (Val a, w1, l1)
    | (Exc e, w1, l1) =>
        match handler e w1 with (r, w2, l2) => (r, w2, l1 ++ l2) end
    end.

(** [try: body / except HttpError as e: handler] *)
Definition try_http {W A} (body : M W A) (handler : string -> M W A) : M W A :=
  try_except body
    (fun e => match e with HttpError msg => handler msg | _ => raise e end).

Definition emit {W} (a : action) : M W unit := fun w => (Val tt, w, [a]).

(** [print(line)] and [print(line, file=sys.stderr)] *)
Definition print {W} (line : string) : M W unit := emit (Stdout line).
Definition eprint {W} (line : string) : M W unit := emit (Stderr line).

(** One request: it is recorded, then answered by the gateway. *)
Definition request {W A} (a : action) (op : W -> (string + A) * W) : M W A :=
  fun w =>
    match op w with
    | (inl msg, w1) => (Exc (HttpError msg), w1, [a])
    | (inr x, w1) => (Val x, w1, [a])
    end.

Declare Scope prog_scope.
Delimit Scope prog_scope with prog.
Notation "x <- m ;; k" := (bind m (fun x => k))
  (at level 100, m at next level, right associativity) : prog_scope.
Notation "m ;;; k" := (bind m (fun _ => k))
  (at level 100, right associativity) : prog_scope.

(** [for x in l: body(x)] *)
Fixpoint for_each {W A} (l : list A) (body : A -> M W unit) : M W unit :=
  match l with
  | [] => ret tt
  | x :: t => bind (body x) (fun _ => for_each t body)
  end.

(** A loop that carries the variables it assigns. *)
Fixpoint for_fold {W A S} (l : list A) (s : S) (body : S -> A -> M W S) : M W S :=
  match l with
  | [] => ret s
  | x :: t => bind (body s x) (fun s1 => for_fold t s1 body)
  end.

(** ** The program *)

(** A chain member: [(name, ev)]. *)
Abbreviation member := (string * event)%type.

(** [chain_map]: a dictionary from chain id to members; Python keeps the
    keys in insertion order, so it is an association list. *)
Abbreviation chain_map := (list (string * list member)).

(** [chain_map.setdefault(chain_id, []).append(item)] *)
Fixpoint chain_append (chain_id : string) (item : member) (m : chain_map)
  : chain_map :=
  match m with
  | [] => [(chain_id, [item])]
  | (k, items) :: rest =>
      if String.eqb k chain_id then (k, items ++ [item]) :: rest
      else (k, items) :: chain_append chain_id item rest
  end.

(** The metadata written on every member of a chain. *)
Definition sync_meta (chain_id origin_name : string) : sdict :=
  {[ "trisync" := "1";
     "trisync_chain_id" := chain_id;
     "trisync_origin" := origin_name ]}.

(** The test of [main] for an event that is already tracked:
    [priv.get('trisync') == '1' and 'trisync_chain_id' in priv]. *)
Definition tracked_chain (ev : event) : option string :=
  let priv := get_private_meta ev in
  if bool_decide (priv !! "trisync" = Some "1") then priv !! "trisync_chain_id"
  else None.

(** The classification loop of [main] for one event. *)
Definition classify_event (cfg : config) (known_prefixes : list string)
    (name : string) (st : chain_map * list member) (ev : event)
  : chain_map * list member :=
  let '(chains, unsynced) := st in
  match tracked_chain ev with
  | Some chain_id => (chain_append chain_id (name, ev) chains, unsynced)
  | None =>
      if should_skip_event ev cfg known_prefixes then (chains, unsynced)
      else (chains, unsynced ++ [(name, ev)])
  end.

(** The classification loop of [main]:
    [for c in calendars: for ev in cal_events[name]: ...]. *)
Definition classify (cfg : config) (known_prefixes : list string)
    (calendars : list calendar) (cal_events : gmap string (list event))
  : chain_map * list member :=
  fold_left
    (fun st c =>
       fold_left (classify_event cfg known_prefixes (name c))
                 (default [] (cal_events !! name c)) st)
    calendars ([], []).

(** [known_prefixes = [f"[{c['name']}] " for c in calendars]] *)
Definition known_prefixes_of (calendars : list calendar) : list string :=
  map (fun c => "[" +:+ name c +:+ "] ") calendars.

(** [upd_ts(ev)]; the default is the epoch. *)
Definition upd_ts (ev : event) : Z := default 0%Z (ev_updated ev).

(** [max(items, key=lambda t: upd_ts(t[1]))]: the first of the largest. *)
Fixpoint max_by_updated (best : member) (items : list member) : member :=
  match items with
  | [] => best
  | it :: rest =>
      if (upd_ts (snd best) <? upd_ts (snd it))%Z then max_by_updated it rest
      else max_by_updated best rest
  end.

(** The first [trisync_origin] found among the members, as
    [perform_safe_delete] looks for it. *)
Fixpoint first_origin (items : list member) : option string :=
  match items with
  | [] => None
  | (_, ev) :: rest =>
      match get_private_meta ev !! "trisync_origin" with
      | Some o => Some o
      | None => first_origin rest
      end
  end.

(** [priv.get('trisync') == '1' and priv.get('trisync_chain_id') == chain_id] *)
Definition still_tagged (chain_id : string) (ev : event) : bool :=
  let priv := get_private_meta ev in
  bool_decide (priv !! "trisync" = Some "1")
  && bool_decide (priv !! "trisync_chain_id" = Some chain_id).

(** The field comparison of [update_if_diff]: the body to send and
    whether a field differed. *)
Definition diff_fields (existing source_like : event) (cfg : config)
  : event * bool :=
  let ex := canonical_event_dict existing in
  let sr := canonical_event_dict source_like in
  let desired := existing in
  let changed := false in
  let '(desired, changed) :=
    if bool_decide (ev_location ex ≠ ev_location sr)
    then (set_location (ev_location sr) desired, true)
    else (desired, changed) in
  let '(desired, changed) :=
    if bool_decide (ev_description ex ≠ ev_description sr)
    then (set_description (ev_description sr) desired, true)
    else (desired, changed) in
  let '(desired, changed) :=
    if bool_decide (ev_start ex ≠ ev_start sr)
    then (set_start (ev_start sr) desired, true)
    else (desired, changed) in
  let '(desired, changed) :=
    if bool_decide (ev_end ex ≠ ev_end sr)
    then (set_end (ev_end sr) desired, true)
    else (desired, changed) in
  let desired :=
    set_description
      (Some (add_sync_note (default "" (ev_description desired))
               (default "" (sync_tag_in_description cfg))))
      desired in
  (desired, changed).

Section Program.

Context {W : Type}.
Variable gw : Gateway W.
(** [hashlib.sha1(s.encode('utf-8')).hexdigest()] *)
Variable sha1_hex : string -> string.

Local Open Scope prog_scope.

(** [compute_chain_id(origin_calendar_name, event_id)] *)
Definition compute_chain_id (origin_calendar_name event_id : string) : string :=
  sha1_hex (origin_calendar_name +:+ ":" +:+ event_id).

(** [ev['id']] *)
Definition item_id (ev : event) : M W string :=
  match ev_id ev with
  | Some i => ret i
  | None => raise (KeyError "id")
  end.

(** [next(c for c in calendars if c['name'] == name)] *)
Definition next_calendar (calendars : list calendar) (nm : string)
  : M W calendar :=
  match List.find (fun c => String.eqb (name c) nm) calendars with
  | Some c => ret c
  | None => raise StopIteration
  end.

(** [list_events(svc, calendar_id, time_min, time_max)]: the events of
    every page of the time window. *)
Definition list_events (svc calendar_id : string) : M W (list event) :=
  request (ListEvents svc calendar_id) (gw_list gw svc calendar_id).

(** [find_event_by_chain(svc, calendar_id, chain_id)] *)
Definition find_event_by_chain (svc calendar_id chain_id : string)
  : M W (option event) :=
  items <- request (FindByChain svc calendar_id chain_id)
                   (gw_find gw svc calendar_id chain_id) ;;
  ret (head items).

(** [svc.events().update(calendarId=.., eventId=.., body=..).execute()] *)
Definition events_update (svc calendar_id event_id : string) (body : event)
  : M W event :=
  request (UpdateEvent svc calendar_id event_id body)
          (gw_update gw svc calendar_id event_id body).

(** The body that [create_copy] inserts. *)
Definition clone_of (source_event : event) (cfg : config)
    (origin_name chain_id : string) : event :=
  let clone :=
    {| ev_id := None;
       ev_summary :=
         Some (title_with_origin (default true (prefix_origin_in_title cfg))
                 origin_name (default "" (ev_summary source_event)));
       ev_location := Some (default "" (ev_location source_event));
       ev_description :=
         Some (add_sync_note (default "" (ev_description source_event))
                 (default "" (sync_tag_in_description cfg)));
       ev_start := Some (default ∅ (ev_start source_event));
       ev_end := Some (default ∅ (ev_end source_event));
       ev_visibility := Some (default "default" (ev_visibility source_event));
       ev_reminders :=
         Some (default {| useDefault := true; overrides := [] |}
                 (ev_reminders source_event));
       ev_eventType := None; ev_updated := None;
       ev_extendedProperties := None |} in
  set_private_meta clone (sync_meta chain_id origin_name).

(** [create_copy(svc, target_calendar_id, source_event, cfg, origin_name,
    chain_id)] *)
Definition create_copy (svc target_calendar_id : string) (source_event : event)
    (cfg : config) (origin_name chain_id : string) : M W event :=
  let clone := clone_of source_event cfg origin_name chain_id in
  request (InsertEvent svc target_calendar_id clone)
          (gw_insert gw svc target_calendar_id clone).

(** [update_if_diff(svc, calendar_id, existing, source_like, cfg)] *)
Definition update_if_diff (svc calendar_id : string)
    (existing source_like : event) (cfg : config) : M W (event * bool) :=
  let '(desired, changed) := diff_fields existing source_like cfg in
  if changed then
    try_http
      (i <- item_id existing ;;
       r <- events_update svc calendar_id i desired ;;
       ret (r, true))
      (fun e =>
         eprint ("Update failed on " +:+ calendar_id +:+ ": " +:+ e) ;;;
         ret (existing, false))
  else ret (existing, false).

(** The deletion loop of [perform_safe_delete] for one member. *)
Definition delete_member (calendars : list calendar)
    (chain_id origin_name : string) (it : member) : M W unit :=
  let '(nm, ev) := it in
  if String.eqb nm origin_name then ret tt
  else
    try_http
      (c <- next_calendar calendars nm ;;
       c' <- next_calendar calendars nm ;;
       if still_tagged chain_id ev then
         i <- item_id ev ;;
         request (DeleteEvent (service c) (calendar_id c') i)
                 (gw_delete gw (service c) (calendar_id c') i) ;;;
         print ("[chain " +:+ Str.take 6 chain_id +:+ "] Deleted in " +:+ nm
                +:+ " (origin missing)")
       else ret tt)
      (fun e => eprint ("Delete failed on " +:+ nm +:+ ": " +:+ e)).

(** [perform_safe_delete(calendars, chain_id, items, cfg)] *)
Definition perform_safe_delete (calendars : list calendar) (chain_id : string)
    (items : list member) (cfg : config) : M W bool :=
  match first_origin items with
  | None => ret false
  | Some origin_name =>
      if negb (Str.truthy origin_name) then ret false
      else
        let origin_present :=
          existsb (fun it => String.eqb (fst it) origin_name) items in
        if origin_present then ret false
        else if negb (default false (sync_delete cfg)) then ret true
        else
          for_each items (delete_member calendars chain_id origin_name) ;;;
          ret true
  end.

(** The visibility that [main] forces on a copy it has just created or
    found: [if ev.get('visibility') != vis: ev['visibility'] = vis; update]. *)
Definition force_visibility (c : calendar) (cfg : config) (ev : event)
  : M W (event * bool) :=
  let vis := desired_copy_visibility_for c cfg in
  if bool_decide (ev_visibility ev ≠ Some vis) then
    let ev := set_visibility (Some vis) ev in
    i <- item_id ev ;;
    r <- events_update (service c) (calendar_id c) i ev ;;
    ret (r, true)
  else ret (ev, false).

(** The body of [try:] around [create_copy] in both loops of [main]. *)
Definition create_and_force (c : calendar) (cfg : config)
    (source_event : event) (origin_name chain_id : string) : M W unit :=
  copied <- create_copy (service c) (calendar_id c) source_event cfg
                        origin_name chain_id ;;
  force_visibility c cfg copied ;;;
  ret tt.

(** The first part of the bootstrap loop of [main]: tag the source.
    The result is [ev] as the rest of the loop sees it: [set_private_meta]
    changes it in place before the patch is sent, so the tag stays on
    it when the patch fails. *)
Definition tag_source (calendars : list calendar) (src_name chain_id : string)
    (ev : event) : M W event :=
  let warn (e : exn) : M W unit :=
    eprint ("Warning: cannot save meta on " +:+ src_name +:+ ": "
            +:+ exn_str e) in
  found <- try_except
             (svc_src <- next_calendar calendars src_name ;;
              cal_src <- next_calendar calendars src_name ;;
              ret (Some (service svc_src, calendar_id cal_src)))
             (fun e => warn e ;;; ret None) ;;
  match found with
  | None => ret ev
  | Some (svc_src, cal_id_src) =>
      if negb (String.eqb (default "" (ev_eventType ev)) "fromGmail") then
        let ev := set_private_meta ev (sync_meta chain_id src_name) in
        try_except
          (i <- item_id ev ;;
           request (PatchEvent svc_src cal_id_src i (get_private_meta ev))
                   (gw_patch gw svc_src cal_id_src i (get_private_meta ev)) ;;;
           ret tt)
          warn ;;;
        ret ev
      else
        print ("Note: 'fromGmail' event on " +:+ src_name
               +:+ ", skipping patch") ;;;
        ret ev
  end.

(** The second part of the bootstrap loop: one target calendar.  An event
    answered by the service is a non-empty dictionary, so [if not found]
    is the test for [None]. *)
Definition bootstrap_copy (cfg : config) (src_name chain_id : string)
    (ev : event) (c : calendar) : M W unit :=
  if String.eqb (name c) src_name then ret tt
  else
    found <- find_event_by_chain (service c) (calendar_id c) chain_id ;;
    match found with
    | Some _ => ret tt
    | None =>
        try_http
          (create_and_force c cfg ev src_name chain_id ;;;
           print ("Creato in " +:+ name c +:+ " -> copia di '"
                  +:+ Str.take 40 (default "" (ev_summary ev)) +:+ "'"))
          (fun e => eprint ("Insert failed on " +:+ name c +:+ ": " +:+ e))
    end.

(** The bootstrap loop of [main] for one untracked event. *)
Definition bootstrap_one (calendars : list calendar) (cfg : config)
    (chains : chain_map) (it : member) : M W chain_map :=
  let '(src_name, ev) := it in
  i <- item_id ev ;;
  let chain_id := compute_chain_id src_name i in
  ev <- tag_source calendars src_name chain_id ev ;;
  for_each calendars (bootstrap_copy cfg src_name chain_id ev) ;;;
  ret (chain_append chain_id (src_name, ev) chains).

(** The refresh of one member in the chain loop of [main]. *)
Definition refresh_member (calendars : list calendar) (it : member)
  : M W member :=
  let '(nm, ev) := it in
  c <- next_calendar calendars nm ;;
  c' <- next_calendar calendars nm ;;
  ev_ref <- try_http
              (i <- item_id ev ;;
               request (GetEvent (service c) (calendar_id c') i)
                       (gw_get gw (service c) (calendar_id c') i))
              (fun _ => ret ev) ;;
  ret (nm, ev_ref).

(** [refreshed], built by the first loop over [items]. *)
Fixpoint refresh (calendars : list calendar) (items : list member)
  : M W (list member) :=
  match items with
  | [] => ret []
  | it :: rest =>
      r <- refresh_member calendars it ;;
      rs <- refresh calendars rest ;;
      ret (r :: rs)
  end.

(** The reconciliation of one calendar with the selected source. *)
Definition reconcile_calendar (cfg : config) (chain_id : string)
    (source : member) (c : calendar) : M W unit :=
  let '(source_name, source_event) := source in
  let model := canonical_event_dict source_event in
  target_ev <- find_event_by_chain (service c) (calendar_id c) chain_id ;;
  match target_ev with
  | None =>
      try_http
        (create_and_force c cfg source_event
           (default source_name
              (get_private_meta source_event !! "trisync_origin"))
           chain_id ;;;
         print ("[chain " +:+ Str.take 6 chain_id +:+ "] Creato mancante in "
                +:+ name c))
        (fun e => eprint ("Insert failed on " +:+ name c +:+ ": " +:+ e))
  | Some target_ev =>
      r <- update_if_diff (service c) (calendar_id c) target_ev model cfg ;;
      let '(updated_ev, changed) := r in
      f <- force_visibility c cfg updated_ev ;;
      let changed := changed || snd f in
      if changed then
        print ("[chain " +:+ Str.take 6 chain_id +:+ "] Aggiornato in "
               +:+ name c)
      else ret tt
  end.

(** The body of the chain loop of [main]. *)
Definition process_chain (calendars : list calendar) (cfg : config)
    (entry : string * list member) : M W unit :=
  let '(chain_id, items) := entry in
  items <- refresh calendars items ;;
  tombstoned <- perform_safe_delete calendars chain_id items cfg ;;
  if tombstoned then ret tt
  else
    match items with
    | [] => ret tt
    | first :: rest =>
        let source := max_by_updated first rest in
        for_each calendars (reconcile_calendar cfg chain_id source)
    end.

(** The listing loop of [main]. *)
Definition fetch_calendar (cal_events : gmap string (list event))
    (c : calendar) : M W (gmap string (list event)) :=
  evs <- list_events (service c) (calendar_id c) ;;
  print (name c +:+ ": found " +:+ pretty (length evs) +:+ " events.") ;;;
  ret (<[name c := evs]> cal_events).

(** [main()], from the listing of the calendars on. *)
Definition main (cfg : config) (calendars : list calendar) : M W unit :=
  let known_prefixes := known_prefixes_of calendars in
  cal_events <- for_fold calendars ∅ fetch_calendar ;;
  let '(chains, unsynced) := classify cfg known_prefixes calendars cal_events in
  chains <- for_fold unsynced chains (bootstrap_one calendars cfg) ;;
  for_each chains (process_chain calendars cfg) ;;;
  print "Done.".

End Program.

(** ** Configuration variants used in statements *)

Definition with_keywords (kws : list string) (cfg : config) : config :=
  {| prefix_origin_in_title := prefix_origin_in_title cfg;
     sync_tag_in_description := sync_tag_in_description cfg;
     ignore_if_summary_contains := kws;
     ignore_event_types := ignore_event_types cfg;
     skip_if_title_has_known_prefix := skip_if_title_has_known_prefix cfg;
     sync_delete := sync_delete cfg;
     default_copy_visibility := default_copy_visibility cfg |}.

Definition with_event_types (tys : list string) (cfg : config) : config :=
  {| prefix_origin_in_title := prefix_origin_in_title cfg;
     sync_tag_in_description := sync_tag_in_description cfg;
     ignore_if_summary_contains := ignore_if_summary_contains cfg;
     ignore_event_types := tys;
     skip_if_title_has_known_prefix := skip_if_title_has_known_prefix cfg;
     sync_delete := sync_delete cfg;
     default_copy_visibility := default_copy_visibility cfg |}.

(** The configured keywords that can match at all: the non-empty ones. *)
Definition nonempty_keywords (cfg : config) : list string :=
  List.filter Str.truthy (ignore_if_summary_contains cfg).

(** The title as [should_skip_event] matches it. *)
Definition match_title (ev : event) : string :=
  Str.strip (default "" (ev_summary ev)).

(** ** A scripted calendar service for the closed examples

    Its answers are read from fixed tables and it keeps no state: an
    example spells out every answer the program receives. *)

Module Script.

Record script := {
  (** the events of [events().list] over the time window *)
  s_list : string -> string -> list event;
  (** the items of [events().list(privateExtendedProperty=...)] *)
  s_find : string -> string -> string -> list event;
  (** the event of [events().get]; [None] is a 404 *)
  s_get : string -> string -> string -> option event;
  (** the requests that fail with an [HttpError] *)
  s_fail : action -> bool;
}.

Definition with_id (i : string) (e : event) : event :=
  {| ev_id := Some i; ev_summary := ev_summary e;
     ev_location := ev_location e; ev_description := ev_description e;
     ev_start := ev_start e; ev_end := ev_end e;
     ev_visibility := ev_visibility e; ev_reminders := ev_reminders e;
     ev_eventType := ev_eventType e; ev_updated := ev_updated e;
     ev_extendedProperties := ev_extendedProperties e |}.

Definition answer {A} (s : script) (a : action) (x : A) (w : unit)
  : (string + A) * unit :=
  if s_fail s a then (inl "503 backend error", w) else (inr x, w).

(** An insert answers with the body and a fresh id, an update and a
    patch with the body they were sent. *)
Definition gateway (s : script) : Gateway unit :=
  {| gw_list svc cal := answer s (ListEvents svc cal) (s_list s svc cal);
     gw_find svc cal chain :=
       answer s (FindByChain svc cal chain) (s_find s svc cal chain);
     gw_get svc cal i w :=
       match s_get s svc cal i with
       | Some e => answer s (GetEvent svc cal i) e w
       | None => (inl "404 not found", w)
       end;
     gw_insert svc cal body :=
       answer s (InsertEvent svc cal body) (with_id "new" body);
     gw_update svc cal i body :=
       answer s (UpdateEvent svc cal i body) body;
     gw_patch svc cal i priv :=
       answer s (PatchEvent svc cal i priv)
         (set_private_meta (with_id i empty_event) priv);
     gw_delete svc cal i := answer s (DeleteEvent svc cal i) tt |}.

(** The chain ids of the examples: any function can stand for the
    digest, the examples keep the text it would hash. *)
Definition plain_id (s : string) : string := s.

End Script.

(** ** Sample data for the closed examples *)

Module Sample.

Definition calA : calendar :=
  {| name := "A"; calendar_id := "primary"; service := "tokens/a.json";
     copy_visibility := None |}.
Definition calB : calendar :=
  {| name := "B"; calendar_id := "primary"; service := "tokens/b.json";
     copy_visibility := None |}.
Definition calC : calendar :=
  {| name := "C"; calendar_id := "team"; service := "tokens/c.json";
     copy_visibility := Some "public" |}.

(** The defaults of every optional key. *)
Definition cfg0 : config :=
  {| prefix_origin_in_title := None; sync_tag_in_description := None;
     ignore_if_summary_contains := []; ignore_event_types := [];
     skip_if_title_has_known_prefix := None; sync_delete := None;
     default_copy_visibility := None |}.

Definition titled (i title : string) : event :=
  {| ev_id := Some i; ev_summary := Some title; ev_location := None;
     ev_description := None; ev_start := Some {[ "date" := "2026-01-10" ]};
     ev_end := Some {[ "date" := "2026-01-11" ]};
     ev_visibility := None; ev_reminders := None; ev_eventType := None;
     ev_updated := Some 100%Z; ev_extendedProperties := None |}.

Definition with_type (ty : string) (e : event) : event :=
  {| ev_id := ev_id e; ev_summary := ev_summary e;
     ev_location := ev_location e; ev_description := ev_description e;
     ev_start := ev_start e; ev_end := ev_end e;
     ev_visibility := ev_visibility e; ev_reminders := ev_reminders e;
     ev_eventType := Some ty; ev_updated := ev_updated e;
     ev_extendedProperties := ev_extendedProperties e |}.

Definition with_updated (t : Z) (e : event) : event :=
  {| ev_id := ev_id e; ev_summary := ev_summary e;
     ev_location := ev_location e; ev_description := ev_description e;
     ev_start := ev_start e; ev_end := ev_end e;
     ev_visibility := ev_visibility e; ev_reminders := ev_reminders e;
     ev_eventType := ev_eventType e; ev_updated := Some t;
     ev_extendedProperties := ev_extendedProperties e |}.

(** A member of chain [chain_id] whose recorded origin is [origin]. *)
Definition tagged (chain_id origin : string) (e : event) : event :=
  set_private_meta e (sync_meta chain_id origin).

Definition three_calendars : list calendar := [calA; calB; calC].

Definition cfg_cascade : config :=
  {| prefix_origin_in_title := None; sync_tag_in_description := None;
     ignore_if_summary_contains := []; ignore_event_types := [];
     skip_if_title_has_known_prefix := None; sync_delete := Some true;
     default_copy_visibility := None |}.

(** A mirror with id [i] of chain [chain_id], already private. *)
Definition mirror (i chain_id origin : string) : event :=
  tagged chain_id origin
    (set_visibility (Some "private") (titled i "[A] Dentist")).

(** Every list is empty, every get is a 404 and nothing fails. *)
Definition quiet : Script.script :=
  {| Script.s_list _ _ := []; Script.s_find _ _ _ := [];
     Script.s_get _ _ _ := None; Script.s_fail _ := false |}.


(** The origin event [e1] of chain [c1] on calendar A. *)
Definition origin_e1 : event :=
  tagged "c1" "A" (set_visibility (Some "private") (titled "e1" "Dentist")).

(** The mirrors [b1] and [k1] of chain [c1] answer a get; the origin
    event [e1] is gone: a get of it is a 404. *)
Definition origin_gone : Script.script :=
  {| Script.s_list _ _ := []; Script.s_find _ _ _ := [];
     Script.s_get _ _ i :=
       if String.eqb i "b1" then Some (mirror "b1" "c1" "A")
       else if String.eqb i "k1" then Some (mirror "k1" "c1" "A")
       else None;
     Script.s_fail _ := false |}.

Definition two_calendars : list calendar := [calA; calB].

(** Chain [c1] with its origin event [e1] on calendar A and the mirror
    [mB] on calendar B: both answer a get by id and a lookup by chain id;
    the requests for which [fails] holds fail. *)
Definition chain_c1 (mB : event) (fails : action -> bool) : Script.script :=
  {| Script.s_list svc _ :=
       if String.eqb svc (service calA) then [origin_e1]
       else if String.eqb svc (service calB) then [mB] else [];
     Script.s_find svc _ chain_id :=
       if negb (String.eqb chain_id "c1") then []
       else if String.eqb svc (service calA) then [origin_e1]
       else if String.eqb svc (service calB) then [mB] else [];
     Script.s_get svc _ i :=
       if String.eqb svc (service calA) && String.eqb i "e1" then Some origin_e1
       else if String.eqb svc (service calB) && bool_decide (ev_id mB = Some i)
            then Some mB
       else None;
     Script.s_fail := fails |}.

Definition never (a : action) : bool := false.

(** The mirror [b1] as the last one edited, with the visibility
    [default]. *)
Definition edited_mirror : event :=
  with_updated 200
    (tagged "c1" "A" (set_visibility (Some "default") (titled "b1" "[A] Dentist"))).

(** The updates sent to calendar B fail. *)
Definition update_on_B_fails (a : action) : bool :=
  match a with
  | UpdateEvent svc _ _ _ => String.eqb svc (service calB)
  | _ => false
  end.

(** A note for [sync_tag_in_description]. *)
Definition cfg_note : config :=
  {| prefix_origin_in_title := None;
     sync_tag_in_description := Some "[synced]";
     ignore_if_summary_contains := []; ignore_event_types := [];
     skip_if_title_has_known_prefix := None; sync_delete := None;
     default_copy_visibility := None |}.

(** The origin event [e1] with a description, the last one edited. *)
Definition described_origin : event :=
  with_updated 300 (set_description (Some "Bring the x-rays") origin_e1).

(** Its mirror [b1], as [create_copy] writes it under [cfg_note]: the
    description of the origin followed by the note. *)
Definition noted_mirror : event :=
  set_description
    (Some (add_sync_note "Bring the x-rays" "[synced]"))
    (mirror "b1" "c1" "A").

(** As [chain_c1], with [described_origin] on calendar A. *)
Definition chain_c1_described (mB : event) : Script.script :=
  {| Script.s_list svc _ :=
       if String.eqb svc (service calA) then [described_origin]
       else if String.eqb svc (service calB) then [mB] else [];
     Script.s_find svc _ chain_id :=
       if negb (String.eqb chain_id "c1") then []
       else if String.eqb svc (service calA) then [described_origin]
       else if String.eqb svc (service calB) then [mB] else [];
     Script.s_get svc _ i :=
       if String.eqb svc (service calA) && String.eqb i "e1"
       then Some described_origin
       else if String.eqb svc (service calB) && bool_decide (ev_id mB = Some i)
            then Some mB
       else None;
     Script.s_fail := never |}.

(** As [quiet], but every insert fails. *)
Definition insert_fails : Script.script :=
  {| Script.s_list _ _ := []; Script.s_find _ _ _ := [];
     Script.s_get _ _ _ := None;
     Script.s_fail a :=
       match a with InsertEvent _ _ _ => true | _ => false end |}.

(** Calendar A lists one untracked event; the listing of calendar B
    fails. *)
Definition list_of_B_fails : Script.script :=
  {| Script.s_list svc _ :=
       if String.eqb svc (service calA) then [titled "e1" "Dentist"] else [];
     Script.s_find _ _ _ := []; Script.s_get _ _ _ := None;
     Script.s_fail a :=
       match a with
       | ListEvents svc _ => String.eqb svc (service calB)
       | _ => false
       end |}.

(** As [quiet], but every lookup by chain id fails. *)
Definition lookup_fails : Script.script :=
  {| Script.s_list _ _ := []; Script.s_find _ _ _ := [];
     Script.s_get _ _ _ := None;
     Script.s_fail a :=
       match a with FindByChain _ _ _ => true | _ => false end |}.

(** An untracked event that the provider derived from a mail. *)
Definition gmail_ev : event := with_type "fromGmail" (titled "g1" "Your flight").

End Sample.

(** ** Vocabulary of the statements *)


(** [calendars] entry of a replica name, as [next(...)] finds it. *)
Definition calendar_named (calendars : list calendar) (nm : string)
  : option calendar :=
  List.find (fun c => String.eqb (name c) nm) calendars.

(** A member the chain loop can address: its replica is configured and
    the event has an id. *)
Definition addressable (calendars : list calendar) (it : member) : Prop :=
  is_Some (calendar_named calendars (fst it)) /\ is_Some (ev_id (snd it)).



(** The get request for one member. *)
Definition get_request (calendars : list calendar) (it : member)
  : list action :=
  match calendar_named calendars (fst it), ev_id (snd it) with
  | Some c, Some i => [GetEvent (service c) (calendar_id c) i]
  | _, _ => []
  end.



Definition is_get (a : action) : bool :=
  match a with GetEvent _ _ _ => true | _ => false end.


(** The four fields that [update_if_diff] compares, read through
    [canonical_event_dict]. *)
Definition same_content (a b : event) : Prop :=
  ev_location (canonical_event_dict a) = ev_location (canonical_event_dict b)
  /\ ev_description (canonical_event_dict a)
     = ev_description (canonical_event_dict b)
  /\ ev_start (canonical_event_dict a) = ev_start (canonical_event_dict b)
  /\ ev_end (canonical_event_dict a) = ev_end (canonical_event_dict b).

(** The last write of a run, if it wrote at all. *)
Definition last_write (log : list action) : option action :=
  last (writes log).

Definition is_patch (a : action) : bool :=
  match a with PatchEvent _ _ _ _ => true | _ => false end.



(** ** Predicates of the statements *)

(** A candidate is an untracked event that the filter let through. *)
Definition candidate (cfg : config) (known_prefixes : list string)
    (m : member) : Prop :=
  tracked_chain (snd m) = None
  /\ should_skip_event (snd m) cfg known_prefixes = false.

(** Every action of every run of [m] satisfies [P]. *)
Definition emits {W A} (P : action -> Prop) (m : M W A) : Prop :=
  forall w, Forall P (m w).2.


(** What the refresh leaves of a member: its replica, and either the
    stale event or an answer of the gateway to a get of its id. *)
Definition refreshed_from {W} (gw : Gateway W) (calendars : list calendar)
    (it it' : member) : Prop :=
  fst it' = fst it
  /\ (snd it' = snd it
      \/ exists c i w0 w1,
           calendar_named calendars (fst it) = Some c
           /\ ev_id (snd it) = Some i
           /\ gw_get gw (service c) (calendar_id c) i w0 = (inr (snd it'), w1)).

Definition is_delete (a : action) : bool :=
  match a with DeleteEvent _ _ _ => true | _ => false end.

(** What the listing loop of [main] does: list requests and the lines
    that count the events found. *)
Definition listing_action (a : action) : bool :=
  match a with ListEvents _ _ | Stdout _ => true | _ => false end.

(** ** The paging loop of [list_events]

    [main] above takes the events of a calendar from one request; here is
    the loop of [list_events] itself, page by page. *)

(** One answer of [events().list]: the keys [items] and [nextPageToken]. *)
Record page := {
  items : option (list event);
  nextPageToken : option string;
}.

(** [if not page_token]: the key is missing or the token is empty. *)
Definition no_more_pages (p : page) : bool :=
  negb (from_option Str.truthy false (nextPageToken p)).

Section Paging.

Context {W : Type}.
(** [svc.events().list(calendarId=.., pageToken=.., ...).execute()] *)
Variable list_page : string -> string -> option string -> W -> (string + page) * W.

(** The [while True] loop of [list_events], [fuel] pages at most;
    [None] when the pages have not come to an end within [fuel]. *)
Fixpoint list_events_loop (fuel : nat) (svc calendar_id : string)
    (events : list event) (page_token : option string)
  : M W (option (list event)) :=
  match fuel with
  | O => ret None
  | S fuel' =>
      bind (request (ListEvents svc calendar_id)
                    (list_page svc calendar_id page_token))
           (fun resp =>
              let events := events ++ default [] (items resp) in
              let page_token := nextPageToken resp in
              if no_more_pages resp then ret (Some events)
              else list_events_loop fuel' svc calendar_id events page_token)
  end.

(** [list_events(svc, calendar_id, time_min, time_max)] *)
Definition list_events_paged (fuel : nat) (svc calendar_id : string)
  : M W (option (list event)) :=
  list_events_loop fuel svc calendar_id [] None.

(** The pages that the service serves from [page_token] on: each page
    but the last names the token of the next one. *)
Inductive served (svc calendar_id : string)
  : option string -> W -> list page -> W -> Prop :=
| served_last page_token w p w1 :
    list_page svc calendar_id page_token w = (inr p, w1) ->
    no_more_pages p = true ->
    served svc calendar_id page_token w [p] w1
| served_next page_token w p w1 ps w2 :
    list_page svc calendar_id page_token w = (inr p, w1) ->
    no_more_pages p = false ->
    served svc calendar_id (nextPageToken p) w1 ps w2 ->
    served svc calendar_id page_token w (p :: ps) w2.

(** The service fails on the [n]-th page asked from [page_token] on. *)
Inductive cut_short (svc calendar_id : string)
  : option string -> W -> string -> W -> nat -> Prop :=
| cut_now page_token w msg w1 :
    list_page svc calendar_id page_token w = (inl msg, w1) ->
    cut_short svc calendar_id page_token w msg w1 1
| cut_later page_token w p w1 msg w2 n :
    list_page svc calendar_id page_token w = (inr p, w1) ->
    no_more_pages p = false ->
    cut_short svc calendar_id (nextPageToken p) w1 msg w2 n ->
    cut_short svc calendar_id page_token w msg w2 (S n).

End Paging.

(** [chain_map.get(chain_id, [])] *)
Definition chain_items (chain_id : string) (m : chain_map) : list member :=
  match List.find (fun e => String.eqb (fst e) chain_id) m with
  | Some e => snd e
  | None => []
  end.

(** Pages for the closed examples. *)
Module SamplePages.

(** Two pages: the first names the second by the token "p2"; the second
    has no [items] and an empty [nextPageToken]. *)
Definition two_pages (svc calendar_id : string) (page_token : option string)
    (w : unit) : (string + page) * unit :=
  match page_token with
  | None =>
      (inr {| items := Some [Sample.titled "e1" "Dentist"];
              nextPageToken := Some "p2" |}, w)
  | Some t =>
      if String.eqb t "p2"
      then (inr {| items := None; nextPageToken := Some "" |}, w)
      else (inl "400 bad page token", w)
  end.

(** The first page is served, every further request fails. *)
Definition second_page_fails (svc calendar_id : string)
    (page_token : option string) (w : unit) : (string + page) * unit :=
  match page_token with
  | None =>
      (inr {| items := Some [Sample.titled "e1" "Dentist"];
              nextPageToken := Some "p2" |}, w)
  | Some _ => (inl "503 backend error", w)
  end.

End SamplePages.

(** What the classification loop keeps true of the chain map: one entry
    per chain id, no empty chain, and every member tagged with the id of
    its chain. *)
Definition chains_ok (chains : chain_map) : Prop :=
  List.NoDup (map fst chains)
  /\ forall k its, In (k, its) chains ->
       its <> [] /\ forall m, In m its -> tracked_chain (snd m) = Some k.

(** Where the classification loop has put a listed event: in the chain
    of its id when it is tracked, else among the candidates unless the
    filter skips it. *)
Definition filed (cfg : config) (known_prefixes : list string)
    (st : chain_map * list member) (m : member) : Prop :=
  match tracked_chain (snd m) with
  | Some k => In m (chain_items k (fst st))
  | None => should_skip_event (snd m) cfg known_prefixes = true \/ In m (snd st)
  end.

(** A replica is settled for a chain when every lookup of the chain on
    it finds a mirror that has the content of [source_event] and the
    resolved visibility of the replica. *)
Definition settled {W : Type} (gw : Gateway W) (cfg : config)
    (chain_id : string) (source_event : event) (c : calendar) : Prop :=
  forall w, exists target rest w1,
    gw_find gw (service c) (calendar_id c) chain_id w
    = (inr (target :: rest), w1)
    /\ same_content target source_event
    /\ ev_visibility target = Some (desired_copy_visibility_for c cfg).

(** Some member lives on the origin recorded on the chain. *)
Definition origin_present (items : list member) : Prop :=
  exists o it, first_origin items = Some o /\ In it items /\ fst it = o.

(** * Properties of the program *)

(** ** The filter: [should_skip_event] *)

Section Filter.

Variables (cfg : config) (known_prefixes : list string).

Lemma existsb_filter_truthy (f : string -> bool) (l : list string) :
  existsb (fun kw => Str.truthy kw && f kw) (List.filter Str.truthy l)
  = existsb (fun kw => Str.truthy kw && f kw) l.
Proof.
  induction l as [|kw l IH]; [reflexivity|].
  simpl. destruct (Str.truthy kw) eqn:E; simpl; rewrite ?E, IH; reflexivity.
Qed.

Lemma skip_without_empty_keywords (ev : event) :
  should_skip_event ev (with_keywords (nonempty_keywords cfg) cfg) known_prefixes
  = should_skip_event ev cfg known_prefixes.
Proof.
  unfold should_skip_event, nonempty_keywords; simpl.
  rewrite (existsb_filter_truthy
             (fun kw => Str.contains (Str.lower kw)
                          (Str.lower (Str.strip (default "" (ev_summary ev)))))).
  reflexivity.
Qed.

Lemma skip_without_event_type (ev : event) (tys : list string) :
  Str.strip (default "" (ev_eventType ev)) = "" ->
  should_skip_event ev (with_event_types tys cfg) known_prefixes
  = should_skip_event ev cfg known_prefixes.
Proof.
  intros E. unfold should_skip_event; simpl. rewrite E. reflexivity.
Qed.

Lemma skip_by_keyword (ev : event) (kw : string) :
  In kw (ignore_if_summary_contains cfg) ->
  kw <> "" ->
  Str.contains (Str.lower kw) (Str.lower (match_title ev)) = true ->
  should_skip_event ev cfg known_prefixes = true.
Proof.
  intros Hin Hne Hc. unfold should_skip_event.
  assert (existsb (fun k => Str.truthy k
                    && Str.contains (Str.lower k)
                         (Str.lower (Str.strip (default "" (ev_summary ev)))))
                  (ignore_if_summary_contains cfg) = true) as ->.
  { apply existsb_exists. exists kw. split; [exact Hin|].
    apply andb_true_intro. split; [|exact Hc].
    destruct kw; [congruence|reflexivity]. }
  reflexivity.
Qed.

End Filter.

(** C10: an empty string in [ignore_if_summary_contains] never causes a
    skip: dropping the empty keywords from the configuration leaves the
    answer of [should_skip_event] unchanged for every event.  An event
    whose [eventType] is missing or empty is never skipped by the type
    rule: the answer is the same whatever [ignore_event_types] holds,
    the empty string included. *)
Theorem C10_empty_strings_never_skip :
  forall (cfg : config) (known_prefixes : list string) (ev : event),
    should_skip_event ev (with_keywords (nonempty_keywords cfg) cfg) known_prefixes
    = should_skip_event ev cfg known_prefixes
    /\ (ev_eventType ev = None \/ ev_eventType ev = Some "" ->
        forall tys : list string,
          should_skip_event ev (with_event_types tys cfg) known_prefixes
          = should_skip_event ev (with_event_types [] cfg) known_prefixes).
Proof.
  intros cfg kp ev. split; [apply skip_without_empty_keywords|].
  intros Hty tys.
  assert (Str.strip (default "" (ev_eventType ev)) = "") as E
    by (destruct Hty as [-> | ->]; reflexivity).
  rewrite !skip_without_event_type by exact E. reflexivity.
Qed.

Lemma C10_empty_strings_never_skip_witness :
  should_skip_event (Sample.with_type "" (Sample.titled "e1" "Lunch"))
    (with_event_types ["";"fromGmail"] (with_keywords [""] Sample.cfg0)) ["[A] "]
  = should_skip_event (Sample.with_type "" (Sample.titled "e1" "Lunch"))
      (with_event_types [] (with_keywords [""] Sample.cfg0)) ["[A] "].
Proof.
  refine (proj2 (C10_empty_strings_never_skip
                   (with_keywords [""] Sample.cfg0) ["[A] "]
                   (Sample.with_type "" (Sample.titled "e1" "Lunch")))
                _ ["";"fromGmail"]).
  right. reflexivity.
Defined.

(** ** The classification loop of [main] *)

Section Classification.

Variables (cfg : config) (known_prefixes : list string).

Lemma classify_event_tracked (nm : string) (st : chain_map * list member)
    (ev : event) (chain_id : string) :
  tracked_chain ev = Some chain_id ->
  classify_event cfg known_prefixes nm st ev
  = (chain_append chain_id (nm, ev) (fst st), snd st).
Proof. intros E. destruct st. unfold classify_event. rewrite E. reflexivity. Qed.

Lemma classify_event_skipped (nm : string) (st : chain_map * list member)
    (ev : event) :
  tracked_chain ev = None ->
  should_skip_event ev cfg known_prefixes = true ->
  classify_event cfg known_prefixes nm st ev = st.
Proof.
  intros E S. destruct st. unfold classify_event. rewrite E, S. reflexivity.
Qed.

Lemma classify_event_candidates (nm : string) (st : chain_map * list member)
    (ev : event) :
  Forall (candidate cfg known_prefixes) (snd st) ->
  Forall (candidate cfg known_prefixes) (snd (classify_event cfg known_prefixes nm st ev)).
Proof.
  intros H. destruct st as [chains unsynced]. unfold classify_event.
  destruct (tracked_chain ev) eqn:E; [exact H|].
  destruct (should_skip_event ev cfg known_prefixes) eqn:S; [exact H|].
  simpl in *. apply Forall_app. split; [exact H|].
  constructor; [split; assumption|constructor].
Qed.

Lemma classify_events_candidates (nm : string) (evs : list event) :
  forall st : chain_map * list member,
    Forall (candidate cfg known_prefixes) (snd st) ->
    Forall (candidate cfg known_prefixes)
      (snd (fold_left (classify_event cfg known_prefixes nm) evs st)).
Proof.
  induction evs as [|ev evs IH]; intros st H; [exact H|].
  simpl. apply IH, classify_event_candidates, H.
Qed.

Lemma classify_candidates (calendars : list calendar)
    (cal_events : gmap string (list event)) :
  Forall (candidate cfg known_prefixes)
    (snd (classify cfg known_prefixes calendars cal_events)).
Proof.
  unfold classify.
  assert (forall st : chain_map * list member,
            Forall (candidate cfg known_prefixes) (snd st) ->
            Forall (candidate cfg known_prefixes)
              (snd (fold_left
                      (fun st c =>
                         fold_left (classify_event cfg known_prefixes (name c))
                           (default [] (cal_events !! name c)) st)
                      calendars st))) as G.
  { induction calendars as [|c cs IH]; intros st H; [exact H|].
    simpl. apply IH, classify_events_candidates, H. }
  apply G. constructor.
Qed.

End Classification.

(** C9, as the code has it: an untracked event whose title, stripped of
    surrounding blanks as [should_skip_event] reads it, contains a
    non-empty configured keyword (case-insensitive) is ignored: the
    classification loop leaves both the chain map and the candidate list
    as they were, and no run of the loop lists it as a candidate, so the
    bootstrap loop neither tags it nor seeds a chain with it.  The filter
    is not consulted for a tracked event: whatever the configuration, it
    joins the chain named by its metadata. *)
Theorem C9_keyword_filter :
  forall (cfg : config) (calendars : list calendar)
         (cal_events : gmap string (list event))
         (kw nm : string) (ev : event),
    In kw (ignore_if_summary_contains cfg) ->
    kw <> "" ->
    Str.contains (Str.lower kw) (Str.lower (match_title ev)) = true ->
    (tracked_chain ev = None ->
     forall st, classify_event cfg (known_prefixes_of calendars) nm st ev = st)
    /\ ~ In (nm, ev)
         (snd (classify cfg (known_prefixes_of calendars) calendars cal_events))
    /\ (forall (cfg' : config) (kp' : list string) (chain_id : string) st,
          tracked_chain ev = Some chain_id ->
          classify_event cfg' kp' nm st ev
          = (chain_append chain_id (nm, ev) (fst st), snd st)).
Proof.
  intros cfg calendars cal_events kw nm ev Hin Hne Hc.
  pose proof (skip_by_keyword cfg (known_prefixes_of calendars) ev kw Hin Hne Hc)
    as Hskip.
  split; [|split].
  - intros E st. apply classify_event_skipped; assumption.
  - intros Hmem.
    pose proof (classify_candidates cfg (known_prefixes_of calendars)
                  calendars cal_events) as Hall.
    rewrite List.Forall_forall in Hall. apply Hall in Hmem.
    destruct Hmem as [_ Hns]. simpl in Hns. congruence.
  - intros cfg' kp' chain_id st E. apply classify_event_tracked, E.
Qed.

Lemma C9_keyword_filter_witness :
  (tracked_chain (Sample.titled "e1" "Budget REVIEW") = None ->
   forall st,
     classify_event (with_keywords ["review"] Sample.cfg0)
       (known_prefixes_of [Sample.calA; Sample.calB]) "A" st
       (Sample.titled "e1" "Budget REVIEW") = st)
  /\ ~ In ("A", Sample.titled "e1" "Budget REVIEW")
       (snd (classify (with_keywords ["review"] Sample.cfg0)
               (known_prefixes_of [Sample.calA; Sample.calB])
               [Sample.calA; Sample.calB]
               {[ "A" := [Sample.titled "e1" "Budget REVIEW"] ]}))
  /\ (forall (cfg' : config) (kp' : list string) (chain_id : string) st,
        tracked_chain (Sample.titled "e1" "Budget REVIEW") = Some chain_id ->
        classify_event cfg' kp' "A" st (Sample.titled "e1" "Budget REVIEW")
        = (chain_append chain_id ("A", Sample.titled "e1" "Budget REVIEW")
             (fst st), snd st)).
Proof.
  apply (C9_keyword_filter (with_keywords ["review"] Sample.cfg0)
           [Sample.calA; Sample.calB]
           {[ "A" := [Sample.titled "e1" "Budget REVIEW"] ]}
           "review" "A" (Sample.titled "e1" "Budget REVIEW")).
  - simpl. left. reflexivity.
  - discriminate.
  - vm_compute. reflexivity.
Defined.

(** C9 as stated fails on two inputs the code accepts.  With the empty
    string among the keywords every title contains a configured keyword,
    yet the event "Lunch" is listed as a candidate.  With the keyword
    "sync " the title "Team Sync " contains it, yet the title is stripped
    before matching and the event is listed as a candidate. *)
Lemma C9_counterexample :
  (In "" (ignore_if_summary_contains (with_keywords [""] Sample.cfg0))
   /\ Str.contains (Str.lower "") (Str.lower "Lunch") = true
   /\ tracked_chain (Sample.titled "e1" "Lunch") = None
   /\ classify (with_keywords [""] Sample.cfg0)
        (known_prefixes_of [Sample.calA; Sample.calB])
        [Sample.calA; Sample.calB] {[ "A" := [Sample.titled "e1" "Lunch"] ]}
      = ([], [("A", Sample.titled "e1" "Lunch")]))
  /\ (In "sync " (ignore_if_summary_contains (with_keywords ["sync "] Sample.cfg0))
      /\ Str.contains (Str.lower "sync ") (Str.lower "Team Sync ") = true
      /\ tracked_chain (Sample.titled "e2" "Team Sync ") = None
      /\ classify (with_keywords ["sync "] Sample.cfg0)
           (known_prefixes_of [Sample.calA; Sample.calB])
           [Sample.calA; Sample.calB]
           {[ "A" := [Sample.titled "e2" "Team Sync "] ]}
         = ([], [("A", Sample.titled "e2" "Team Sync ")])).
Proof.
  split; (split; [simpl; left; reflexivity|]); vm_compute; repeat split.
Qed.

(** ** Reasoning about runs *)

Section Runs.

Context {W : Type}.

Lemma emits_ret {A} P (a : A) : emits P (@ret W A a).
Proof. intros w. constructor. Qed.

Lemma emits_raise {A} P (e : exn) : emits P (@raise W A e).
Proof. intros w. constructor. Qed.

Lemma emits_emit P (a : action) : P a -> emits P (@emit W a).
Proof. intros H w. simpl. constructor; [exact H|constructor]. Qed.

Lemma emits_request {A} P (a : action) (op : W -> (string + A) * W) :
  P a -> emits P (request a op).
Proof.
  intros H w. unfold request. destruct (op w) as [[msg|x] w1]; simpl;
    (constructor; [exact H|constructor]).
Qed.

Lemma emits_bind {A B} P (m : M W A) (k : A -> M W B) :
  emits P m -> (forall a, emits P (k a)) -> emits P (bind m k).
Proof.
  intros Hm Hk w. unfold bind. specialize (Hm w).
  destruct (m w) as [[[a|e] w1] l1]; simpl in *; [|exact Hm].
  specialize (Hk a w1). destruct (k a w1) as [[r w2] l2]; simpl in *.
  apply Forall_app. split; assumption.
Qed.

Lemma emits_try_except {A} P (m : M W A) (h : exn -> M W A) :
  emits P m -> (forall e, emits P (h e)) -> emits P (try_except m h).
Proof.
  intros Hm Hh w. unfold try_except. specialize (Hm w).
  destruct (m w) as [[[a|e] w1] l1]; simpl in *; [exact Hm|].
  specialize (Hh e w1). destruct (h e w1) as [[r w2] l2]; simpl in *.
  apply Forall_app. split; assumption.
Qed.

Lemma emits_try_http {A} P (m : M W A) (h : string -> M W A) :
  emits P m -> (forall e, emits P (h e)) -> emits P (try_http m h).
Proof.
  intros Hm Hh. apply emits_try_except; [exact Hm|].
  intros [msg| |key]; [apply Hh|apply emits_raise|apply emits_raise].
Qed.

Lemma emits_for_each {A} P (l : list A) (body : A -> M W unit) :
  (forall x, emits P (body x)) -> emits P (for_each l body).
Proof.
  intros H. induction l as [|x l IH]; simpl; [apply emits_ret|].
  apply emits_bind; [apply H|intros _; exact IH].
Qed.

Lemma emits_for_fold {A S} P (l : list A) (body : S -> A -> M W S) :
  (forall s x, emits P (body s x)) -> forall s, emits P (for_fold l s body).
Proof.
  intros H. induction l as [|x l IH]; intros s; simpl; [apply emits_ret|].
  apply emits_bind; [apply H|intros s1; apply IH].
Qed.

(** The run of a sequence, from the run of its first part. *)
Lemma bind_val {A B} (m : M W A) (k : A -> M W B) w a w1 l1 :
  m w = (Val a, w1, l1) ->
  bind m k w = (let '(r, w2, l2) := k a w1 in (r, w2, l1 ++ l2)).
Proof. intros E. unfold bind. rewrite E. reflexivity. Qed.

Lemma bind_exc {A B} (m : M W A) (k : A -> M W B) w e w1 l1 :
  m w = (Exc e, w1, l1) -> bind m k w = (Exc e, w1, l1).
Proof. intros E. unfold bind. rewrite E. reflexivity. Qed.

Lemma writes_app (l1 l2 : list action) :
  writes (l1 ++ l2) = writes l1 ++ writes l2.
Proof. apply List.filter_app. Qed.

End Runs.

(** ** The Tombstone Engine: [perform_safe_delete] *)

Section Tombstone.

Context {W : Type}.
Variable gw : Gateway W.
Variables (calendars : list calendar) (cfg : config) (chain_id : string).






End Tombstone.



(** ** The chain loop up to the tombstone check *)

Section ChainLoop.

Context {W : Type}.
Variable gw : Gateway W.
Variables (calendars : list calendar) (cfg : config) (chain_id : string).

Lemma emits_refresh_member (it : member) :
  emits (fun a => is_get a = true) (refresh_member gw calendars it).
Proof.
  destruct it as [nm ev]. unfold refresh_member, next_calendar, item_id.
  repeat first
    [ apply emits_bind; [|intros ?]
    | apply emits_try_http; [|intros ?]
    | apply emits_ret | apply emits_raise
    | apply emits_request; reflexivity
    | match goal with |- emits _ (match ?x with _ => _ end) => destruct x end ].
Qed.

Lemma emits_refresh (items : list member) :
  emits (fun a => is_get a = true) (refresh gw calendars items).
Proof.
  induction items as [|it items IH]; simpl; [apply emits_ret|].
  apply emits_bind; [apply emits_refresh_member|intros r].
  apply emits_bind; [exact IH|intros rs; apply emits_ret].
Qed.


Lemma emits_weaken {A} (P Q : action -> Prop) (m : M W A) :
  (forall a, P a -> Q a) -> emits P m -> emits Q m.
Proof. intros H Hm w. eapply Forall_impl; [apply Hm|exact H]. Qed.

Lemma gets_write_nothing (log : list action) :
  Forall (fun a => is_get a = true) log -> writes log = [].
Proof.
  induction 1 as [|a log Ha _ IH]; [reflexivity|].
  unfold writes in *. simpl. destruct a; try discriminate. exact IH.
Qed.


End ChainLoop.



(** ** The refresh of a chain *)

Section Refresh.

Context {W : Type}.
Variable gw : Gateway W.
Variable calendars : list calendar.

(** One member: the event the gateway answers, or the stale one when
    the get fails. *)
Lemma refresh_member_run (it : member) c i w :
  calendar_named calendars (fst it) = Some c ->
  ev_id (snd it) = Some i ->
  refresh_member gw calendars it w
  = match gw_get gw (service c) (calendar_id c) i w with
    | (inr e, w1) =>
        (Val (fst it, e), w1, [GetEvent (service c) (calendar_id c) i])
    | (inl _, w1) =>
        (Val it, w1, [GetEvent (service c) (calendar_id c) i])
    end.
Proof.
  intros Hc Hi. destruct it as [nm ev]. simpl in *.
  unfold refresh_member, try_http, try_except, bind, next_calendar.
  unfold calendar_named in Hc. rewrite Hc. unfold ret at 1 2.
  unfold item_id. rewrite Hi. unfold ret at 1. unfold request.
  destruct (gw_get gw (service c) (calendar_id c) i w) as [[msg|e] w1];
    reflexivity.
Qed.

Lemma refresh_member_kept (it : member) w :
  addressable calendars it ->
  exists it' w1,
    refresh_member gw calendars it w = (Val it', w1, get_request calendars it)
    /\ refreshed_from gw calendars it it'.
Proof.
  intros [[c Hc] [i Hi]]. rewrite (refresh_member_run it c i w Hc Hi).
  unfold get_request. rewrite Hc, Hi.
  destruct (gw_get gw (service c) (calendar_id c) i w) as [[msg|e] w1] eqn:E.
  - exists it, w1. split; [reflexivity|]. split; [reflexivity|left; reflexivity].
  - exists (fst it, e), w1. split; [reflexivity|]. split; [reflexivity|].
    right. exists c, i, w, w1. auto.
Qed.

Lemma refresh_keeps (items : list member) :
  Forall (addressable calendars) items ->
  forall w, exists items' w1,
    refresh gw calendars items w
    = (Val items', w1, flat_map (get_request calendars) items)
    /\ Forall2 (refreshed_from gw calendars) items items'.
Proof.
  induction 1 as [|it items Hit _ IH]; intros w.
  - exists [], w. split; [reflexivity|constructor].
  - destruct (refresh_member_kept it w Hit) as (it' & w1 & E1 & R1).
    destruct (IH w1) as (items' & w2 & E2 & R2).
    exists (it' :: items'), w2. simpl refresh.
    rewrite (bind_val _ _ w it' w1 _ E1).
    rewrite (bind_val _ _ w1 items' w2 _ E2). simpl.
    rewrite app_nil_r. split; [reflexivity|constructor; assumption].
Qed.

End Refresh.

(** C4, as the code has it: the refresh sends one get by id for every
    member, in the order of the chain, and it never drops a member: the
    refreshed chain has the same replicas in the same order, each with
    the event the gateway answered or, when its get failed (a 404
    included), with the stale event of the list snapshot. *)
Theorem C4_refresh_keeps_members :
  forall {W : Type} (gw : Gateway W) (calendars : list calendar)
         (items : list member) (w : W),
    Forall (addressable calendars) items ->
    (exists items' w1,
       refresh gw calendars items w
       = (Val items', w1, flat_map (get_request calendars) items)
       /\ map fst items' = map fst items
       /\ Forall2 (refreshed_from gw calendars) items items')
    /\ (forall (it : member) c i msg w0 w1,
          calendar_named calendars (fst it) = Some c ->
          ev_id (snd it) = Some i ->
          gw_get gw (service c) (calendar_id c) i w0 = (inl msg, w1) ->
          refresh_member gw calendars it w0
          = (Val it, w1, [GetEvent (service c) (calendar_id c) i])).
Proof.
  intros W gw calendars items w Hadd. split.
  - destruct (refresh_keeps gw calendars items Hadd w) as (items' & w1 & E & R).
    exists items', w1. split; [exact E|]. split; [|exact R].
    clear E Hadd. induction R as [|it it' items items' [Hn _] _ IH]; [reflexivity|].
    simpl. rewrite Hn, IH. reflexivity.
  - intros it c i msg w0 w1 Hc Hi Hget.
    rewrite (refresh_member_run gw calendars it c i w0 Hc Hi), Hget. reflexivity.
Qed.

Lemma C4_refresh_keeps_members_witness :
  exists items' w1,
    refresh (Script.gateway Sample.origin_gone) Sample.three_calendars
      [("A", Sample.origin_e1); ("B", Sample.mirror "b1" "c1" "A")] tt
    = (Val items', w1,
       flat_map (get_request Sample.three_calendars)
         [("A", Sample.origin_e1); ("B", Sample.mirror "b1" "c1" "A")])
    /\ map fst items' = ["A"; "B"]
    /\ Forall2 (refreshed_from (Script.gateway Sample.origin_gone)
                  Sample.three_calendars)
         [("A", Sample.origin_e1); ("B", Sample.mirror "b1" "c1" "A")] items'.
Proof.
  refine (proj1 (C4_refresh_keeps_members (Script.gateway Sample.origin_gone)
                   Sample.three_calendars
                   [("A", Sample.origin_e1); ("B", Sample.mirror "b1" "c1" "A")]
                   tt _)).
  repeat constructor; eexists; vm_compute; reflexivity.
Defined.

(** C4 as stated fails: the origin event [e1] of chain [c1] was listed on
    calendar A and is gone when the chain is refreshed (its get is a
    404).  The refresh keeps the stale member of A, so the chain is not
    tombstoned, while the chain without that member would be. *)
Lemma C4_counterexample :
  gw_get (Script.gateway Sample.origin_gone) "tokens/a.json" "primary" "e1" tt
  = (inl "404 not found", tt)
  /\ refresh (Script.gateway Sample.origin_gone) Sample.three_calendars
       [("A", Sample.origin_e1); ("B", Sample.mirror "b1" "c1" "A")] tt
     = (Val [("A", Sample.origin_e1); ("B", Sample.mirror "b1" "c1" "A")], tt,
        [GetEvent "tokens/a.json" "primary" "e1";
         GetEvent "tokens/b.json" "primary" "b1"])
  /\ perform_safe_delete (Script.gateway Sample.origin_gone)
       Sample.three_calendars "c1"
       [("A", Sample.origin_e1); ("B", Sample.mirror "b1" "c1" "A")]
       Sample.cfg0 tt
     = (Val false, tt, [])
  /\ perform_safe_delete (Script.gateway Sample.origin_gone)
       Sample.three_calendars "c1"
       [("B", Sample.mirror "b1" "c1" "A")] Sample.cfg0 tt
     = (Val true, tt, []).
Proof. vm_compute. repeat split. Qed.

(** ** The Conflict Resolver and Materializer *)

Section Materializer.

Context {W : Type}.
Variable gw : Gateway W.
Variable cfg : config.

Lemma canonical_idempotent (e : event) :
  canonical_event_dict (canonical_event_dict e) = canonical_event_dict e.
Proof. reflexivity. Qed.

Lemma same_content_canonical (e : event) :
  same_content e (canonical_event_dict e).
Proof. repeat split. Qed.

(** [changed] is raised exactly when one of the four fields differs. *)
Lemma diff_fields_changed (existing source_like : event) :
  snd (diff_fields existing source_like cfg) = true
  <-> ~ same_content existing source_like.
Proof.
  unfold diff_fields, same_content.
  repeat case_bool_decide; simpl; split; intros Hx; try reflexivity;
    try discriminate; try tauto.
Qed.

Lemma diff_fields_same (existing source_like : event) :
  same_content existing source_like ->
  snd (diff_fields existing source_like cfg) = false.
Proof.
  intros H. destruct (snd (diff_fields existing source_like cfg)) eqn:E;
    [|reflexivity].
  apply diff_fields_changed in E. contradiction.
Qed.

(** The body of an update keeps the visibility of the mirror. *)
Lemma diff_fields_visibility (existing source_like : event) :
  ev_visibility (fst (diff_fields existing source_like cfg))
  = ev_visibility existing.
Proof. unfold diff_fields. repeat case_bool_decide; reflexivity. Qed.

(** Without a differing field [update_if_diff] sends nothing. *)
Lemma update_if_diff_same svc cal (existing source_like : event) :
  same_content existing source_like ->
  update_if_diff gw svc cal existing source_like cfg = ret (existing, false).
Proof.
  intros H. unfold update_if_diff.
  pose proof (diff_fields_same existing source_like H) as E.
  destruct (diff_fields existing source_like cfg) as [desired changed].
  simpl in E. rewrite E. reflexivity.
Qed.

(** [update_if_diff] answers [changed = True] only after a field
    differed. *)
Lemma update_if_diff_changed svc cal (existing source_like : event) w r w1 log :
  update_if_diff gw svc cal existing source_like cfg w = (Val (r, true), w1, log) ->
  ~ same_content existing source_like.
Proof.
  intros E Hsame. rewrite (update_if_diff_same svc cal _ _ Hsame) in E.
  discriminate.
Qed.

Lemma find_event_by_chain_run svc cal chain_id w :
  find_event_by_chain gw svc cal chain_id w
  = match gw_find gw svc cal chain_id w with
    | (inr items, w1) => (Val (head items), w1, [FindByChain svc cal chain_id])
    | (inl msg, w1) => (Exc (HttpError msg), w1, [FindByChain svc cal chain_id])
    end.
Proof.
  unfold find_event_by_chain, bind, request.
  destruct (gw_find gw svc cal chain_id w) as [[msg|items] w1]; reflexivity.
Qed.

(** The enforcement step on an event that has the resolved visibility. *)
Lemma force_visibility_same (c : calendar) (ev : event) :
  ev_visibility ev = Some (desired_copy_visibility_for c cfg) ->
  force_visibility gw c cfg ev = ret (ev, false).
Proof.
  intros E. unfold force_visibility. rewrite bool_decide_false; [reflexivity|].
  intros H. apply H, E.
Qed.

(** The enforcement step on an event with another visibility: one
    update whose body is the event with the resolved visibility. *)
Lemma force_visibility_differs (c : calendar) (ev : event) i w :
  ev_visibility ev <> Some (desired_copy_visibility_for c cfg) ->
  ev_id ev = Some i ->
  force_visibility gw c cfg ev w
  = match gw_update gw (service c) (calendar_id c) i
            (set_visibility (Some (desired_copy_visibility_for c cfg)) ev) w with
    | (inr r, w1) =>
        (Val (r, true), w1,
         [UpdateEvent (service c) (calendar_id c) i
            (set_visibility (Some (desired_copy_visibility_for c cfg)) ev)])
    | (inl msg, w1) =>
        (Exc (HttpError msg), w1,
         [UpdateEvent (service c) (calendar_id c) i
            (set_visibility (Some (desired_copy_visibility_for c cfg)) ev)])
    end.
Proof.
  intros Hne Hi. unfold force_visibility. rewrite bool_decide_true by exact Hne.
  unfold bind, item_id. cbn [ev_id set_visibility]. rewrite Hi. unfold ret at 1.
  unfold events_update, request.
  destruct (gw_update gw (service c) (calendar_id c) i
              (set_visibility (Some (desired_copy_visibility_for c cfg)) ev) w)
    as [[msg|r] w1]; reflexivity.
Qed.

(** A replica whose member found by chain id has the content of the
    source: the run is the lookup followed by the enforcement step. *)
Lemma reconcile_calendar_same (chain_id : string) (source : member)
    (c : calendar) (target : event) rest w w1 :
  gw_find gw (service c) (calendar_id c) chain_id w = (inr (target :: rest), w1) ->
  same_content target (snd source) ->
  reconcile_calendar gw cfg chain_id source c w
  = let '(r, w2, l2) := force_visibility gw c cfg target w1 in
    match r with
    | Val (_, true) =>
        (Val tt, w2,
         FindByChain (service c) (calendar_id c) chain_id
         :: l2 ++ [Stdout ("[chain " +:+ Str.take 6 chain_id
                           +:+ "] Aggiornato in " +:+ name c)])
    | Val (_, false) =>
        (Val tt, w2, FindByChain (service c) (calendar_id c) chain_id :: l2)
    | Exc e =>
        (Exc e, w2, FindByChain (service c) (calendar_id c) chain_id :: l2)
    end.
Proof.
  intros Hfind Hsame. destruct source as [source_name source_event].
  unfold reconcile_calendar.
  rewrite (bind_val _ _ w (Some target) w1
             [FindByChain (service c) (calendar_id c) chain_id])
    by (rewrite find_event_by_chain_run, Hfind; reflexivity).
  rewrite update_if_diff_same
    by (destruct Hsame as (H1 & H2 & H3 & H4); repeat split; assumption).
  unfold bind at 1. unfold ret at 1. unfold bind at 1.
  destruct (force_visibility gw c cfg target w1) as [[[[u b]|e] w2] l2];
    [|reflexivity].
  simpl. destruct b; simpl; rewrite ?app_nil_r; reflexivity.
Qed.

End Materializer.




(** ** The bootstrap loop *)

(** Splits a program along its sequencing, handlers and branches, down
    to the requests and printed lines. *)
Ltac emits_step :=
  first
    [ apply emits_bind; [|intros ?]
    | apply emits_try_http; [|intros ?]
    | apply emits_try_except; [|intros ?]
    | apply emits_for_each; intros ?
    | apply emits_ret | apply emits_raise
    | apply emits_request; reflexivity
    | apply emits_emit; reflexivity
    | match goal with |- emits _ (match ?x with _ => _ end) => destruct x end
    | match goal with |- emits _ (if ?x then _ else _) => destruct x end ].

Section Bootstrap.

Context {W : Type}.
Variable gw : Gateway W.
Variable sha1_hex : string -> string.
Variables (calendars : list calendar) (cfg : config).

(** The source of type [fromGmail]: a note is printed, nothing is sent
    and the event stays as it was listed. *)
Lemma tag_source_fromGmail (src_name chain_id : string) (ev : event) c w :
  ev_eventType ev = Some "fromGmail" ->
  calendar_named calendars src_name = Some c ->
  tag_source gw calendars src_name chain_id ev w
  = (Val ev, w,
     [Stdout ("Note: 'fromGmail' event on " +:+ src_name +:+ ", skipping patch")]).
Proof.
  intros Hty Hc. unfold tag_source, try_except, bind, next_calendar.
  unfold calendar_named in Hc. rewrite Hc. unfold ret at 1 2 3.
  rewrite Hty. reflexivity.
Qed.

Lemma emits_force_visibility P (c : calendar) (ev : event) :
  (forall svc cal i body, P (UpdateEvent svc cal i body)) ->
  emits P (force_visibility gw c cfg ev).
Proof.
  intros HP. unfold force_visibility, item_id, events_update.
  repeat first [ apply emits_request; apply HP | emits_step ].
Qed.

Lemma emits_create_and_force P (c : calendar) (ev : event) origin chain_id :
  (forall svc cal i body, P (UpdateEvent svc cal i body)) ->
  (forall svc cal body, P (InsertEvent svc cal body)) ->
  emits P (create_and_force gw c cfg ev origin chain_id).
Proof.
  intros HU HI. unfold create_and_force, create_copy.
  apply emits_bind; [apply emits_request, HI|intros copied].
  apply emits_bind; [apply emits_force_visibility, HU|intros ?; apply emits_ret].
Qed.

Lemma emits_bootstrap_copy (src_name chain_id : string) (ev : event) (c : calendar) :
  emits (fun a => is_patch a = false)
        (bootstrap_copy gw cfg src_name chain_id ev c).
Proof.
  unfold bootstrap_copy, find_event_by_chain, print, eprint.
  destruct (String.eqb (name c) src_name); [apply emits_ret|].
  apply emits_bind; [repeat emits_step|intros [found|]]; [apply emits_ret|].
  apply emits_try_http.
  - apply emits_bind; [|intros ?; apply emits_emit; reflexivity].
    apply emits_create_and_force; reflexivity.
  - intros e. apply emits_emit. reflexivity.
Qed.

Lemma bind_log_prefix {A B} (m : M W A) (k : A -> M W B) w :
  exists rest, (bind m k w).2 = (m w).2 ++ rest.
Proof.
  unfold bind. destruct (m w) as [[[a|e] w1] l1]; simpl.
  - destruct (k a w1) as [[r w2] l2]. exists l2. reflexivity.
  - exists []. rewrite app_nil_r. reflexivity.
Qed.

Lemma try_http_log_prefix {A} (m : M W A) (h : string -> M W A) w :
  exists rest, (try_http m h w).2 = (m w).2 ++ rest.
Proof.
  unfold try_http, try_except. destruct (m w) as [[[a|e] w1] l1]; simpl.
  - exists []. rewrite app_nil_r. reflexivity.
  - destruct e as [msg| |key].
    + destruct (h msg w1) as [[r w2] l2]. exists l2. reflexivity.
    + exists []. reflexivity.
    + exists []. reflexivity.
Qed.

Lemma request_log {A} (a : action) (op : W -> (string + A) * W) w :
  (request a op w).2 = [a].
Proof. unfold request. destruct (op w) as [[msg|x] w1]; reflexivity. Qed.

(** The copy loop on a replica that holds no mirror of the chain: the
    lookup is followed by the insert of the clone of [ev]. *)
Lemma bootstrap_copy_inserts (src_name chain_id : string) (ev : event)
    (c : calendar) w w1 :
  name c <> src_name ->
  gw_find gw (service c) (calendar_id c) chain_id w = (inr [], w1) ->
  exists rest,
    (bootstrap_copy gw cfg src_name chain_id ev c w).2
    = FindByChain (service c) (calendar_id c) chain_id
      :: InsertEvent (service c) (calendar_id c)
           (clone_of ev cfg src_name chain_id)
      :: rest.
Proof.
  intros Hne Hfind. unfold bootstrap_copy.
  destruct (String.eqb_spec (name c) src_name) as [E|_]; [contradiction|].
  rewrite (bind_val _ _ w None w1
             [FindByChain (service c) (calendar_id c) chain_id])
    by (rewrite find_event_by_chain_run, Hfind; reflexivity).
  match goal with
  | |- context [try_http ?m ?h w1] =>
      destruct (try_http_log_prefix m h w1) as [r1 E1];
      destruct (try_http m h w1) as [[r w2] l2]
  end.
  simpl in E1. subst l2.
  match goal with
  | |- context [(bind ?m ?k w1).2] =>
      destruct (bind_log_prefix m k w1) as [r2 E2]; rewrite E2
  end.
  unfold create_and_force.
  match goal with
  | |- context [(bind ?m ?k w1).2] =>
      destruct (bind_log_prefix m k w1) as [r3 E3]; rewrite E3
  end.
  unfold create_copy. rewrite request_log. simpl.
  eexists. reflexivity.
Qed.

(** One iteration of the bootstrap loop for a [fromGmail] source: the
    copy loop runs on the untagged event and the chain is seeded. *)
Lemma bootstrap_one_fromGmail (chains : chain_map) (src_name : string)
    (ev : event) i c w :
  ev_eventType ev = Some "fromGmail" ->
  ev_id ev = Some i ->
  calendar_named calendars src_name = Some c ->
  bootstrap_one gw sha1_hex calendars cfg chains (src_name, ev) w
  = let chain_id := compute_chain_id sha1_hex src_name i in
    let '(r, w1, l) :=
      for_each calendars (bootstrap_copy gw cfg src_name chain_id ev) w in
    (match r with
     | Val _ => Val (chain_append chain_id (src_name, ev) chains)
     | Exc e => Exc e
     end, w1,
     Stdout ("Note: 'fromGmail' event on " +:+ src_name +:+ ", skipping patch")
     :: l).
Proof.
  intros Hty Hi Hc. unfold bootstrap_one. unfold item_id. rewrite Hi.
  unfold bind at 1. unfold ret at 1. cbv zeta.
  rewrite (bind_val _ _ w ev w _
             (tag_source_fromGmail src_name
                (compute_chain_id sha1_hex src_name i) ev c w Hty Hc)).
  unfold bind.
  destruct (for_each calendars
              (bootstrap_copy gw cfg src_name
                 (compute_chain_id sha1_hex src_name i) ev) w)
    as [[[[]|e] w1] l]; simpl; rewrite ?app_nil_r; reflexivity.
Qed.

End Bootstrap.

(** C5, as the code has it: for an untracked candidate of type
    [fromGmail] the metadata write is skipped with a printed note and is
    not fatal: tagging answers with the event as it was listed, the whole
    iteration sends no patch, and the event keeps no tag, so the next
    pass meets it as a candidate again.  The event is all the same the
    origin of its chain in this pass: on every other replica whose lookup
    finds no mirror, the clone of the event, tagged with its replica as
    [trisync_origin], is inserted, and when the iteration ends the chain
    map holds the event under its chain id. *)
Theorem C5_fromGmail_source :
  forall {W : Type} (gw : Gateway W) (sha1_hex : string -> string)
         (calendars : list calendar) (cfg : config) (chains : chain_map)
         (src_name i : string) (ev : event) (c_src : calendar) (w : W),
    ev_eventType ev = Some "fromGmail" ->
    ev_id ev = Some i ->
    calendar_named calendars src_name = Some c_src ->
    tag_source gw calendars src_name (compute_chain_id sha1_hex src_name i) ev w
    = (Val ev, w,
       [Stdout ("Note: 'fromGmail' event on " +:+ src_name +:+ ", skipping patch")])
    /\ Forall (fun a => is_patch a = false)
         (bootstrap_one gw sha1_hex calendars cfg chains (src_name, ev) w).2
    /\ (forall chains' w' log,
          bootstrap_one gw sha1_hex calendars cfg chains (src_name, ev) w
          = (Val chains', w', log) ->
          chains'
          = chain_append (compute_chain_id sha1_hex src_name i) (src_name, ev)
              chains)
    /\ (forall (c : calendar) w0 w1,
          name c <> src_name ->
          gw_find gw (service c) (calendar_id c)
            (compute_chain_id sha1_hex src_name i) w0 = (inr [], w1) ->
          exists rest,
            (bootstrap_copy gw cfg src_name
               (compute_chain_id sha1_hex src_name i) ev c w0).2
            = FindByChain (service c) (calendar_id c)
                (compute_chain_id sha1_hex src_name i)
              :: InsertEvent (service c) (calendar_id c)
                   (clone_of ev cfg src_name
                      (compute_chain_id sha1_hex src_name i))
              :: rest)
    /\ get_private_meta
         (clone_of ev cfg src_name (compute_chain_id sha1_hex src_name i))
       !! "trisync_origin" = Some src_name.
Proof.
  intros W gw sha1_hex calendars cfg chains src_name i ev c_src w Hty Hi Hc.
  split; [apply (tag_source_fromGmail gw calendars _ _ ev c_src w Hty Hc)|].
  pose proof (bootstrap_one_fromGmail gw sha1_hex calendars cfg chains src_name
                ev i c_src w Hty Hi Hc) as Hrun.
  cbv zeta in Hrun.
  pose proof (emits_for_each (fun a => is_patch a = false) calendars
                (bootstrap_copy gw cfg src_name
                   (compute_chain_id sha1_hex src_name i) ev)
                (emits_bootstrap_copy gw cfg src_name _ ev) w) as Hlog.
  destruct (for_each calendars
              (bootstrap_copy gw cfg src_name
                 (compute_chain_id sha1_hex src_name i) ev) w)
    as [[r w1] l].
  simpl in Hlog. split; [|split; [|split]].
  - rewrite Hrun. simpl. constructor; [reflexivity|exact Hlog].
  - intros chains' w' log E. rewrite Hrun in E. destruct r; congruence.
  - intros c w0 w1' Hne Hfind.
    apply (bootstrap_copy_inserts gw cfg src_name _ ev c w0 w1' Hne Hfind).
  - unfold clone_of, get_private_meta, set_private_meta, sync_meta. simpl.
    rewrite lookup_union_l'; simplify_map_eq; eauto.
Qed.

Lemma C5_fromGmail_source_witness :
  tag_source (Script.gateway Sample.quiet) Sample.two_calendars "A"
    (compute_chain_id Script.plain_id "A" "g1") Sample.gmail_ev tt
  = (Val Sample.gmail_ev, tt,
     [Stdout "Note: 'fromGmail' event on A, skipping patch"])
  /\ Forall (fun a => is_patch a = false)
       (bootstrap_one (Script.gateway Sample.quiet) Script.plain_id
          Sample.two_calendars Sample.cfg0 [] ("A", Sample.gmail_ev) tt).2.
Proof.
  pose proof (C5_fromGmail_source (Script.gateway Sample.quiet) Script.plain_id
                Sample.two_calendars Sample.cfg0 [] "A" "g1" Sample.gmail_ev
                Sample.calA tt eq_refl eq_refl eq_refl) as H.
  exact (conj (proj1 H) (proj1 (proj2 H))).
Defined.

(** C5 as stated fails: the untracked [fromGmail] event [g1] of calendar
    A is not patched, but the same iteration inserts its mirror on
    calendar B, tagged with A as [trisync_origin], forces the visibility
    of that mirror, and seeds the chain with the event, so mirrors are
    materialized from it in this pass. *)
Lemma C5_counterexample :
  ev_eventType Sample.gmail_ev = Some "fromGmail"
  /\ tracked_chain Sample.gmail_ev = None
  /\ bootstrap_one (Script.gateway Sample.quiet) Script.plain_id
       Sample.two_calendars Sample.cfg0 [] ("A", Sample.gmail_ev) tt
     = (Val [("A:g1", [("A", Sample.gmail_ev)])], tt,
        [Stdout "Note: 'fromGmail' event on A, skipping patch";
         FindByChain "tokens/b.json" "primary" "A:g1";
         InsertEvent "tokens/b.json" "primary"
           (clone_of Sample.gmail_ev Sample.cfg0 "A" "A:g1");
         UpdateEvent "tokens/b.json" "primary" "new"
           (set_visibility (Some "private")
              (Script.with_id "new"
                 (clone_of Sample.gmail_ev Sample.cfg0 "A" "A:g1")));
         Stdout "Creato in B -> copia di 'Your flight'"])
  /\ get_private_meta (clone_of Sample.gmail_ev Sample.cfg0 "A" "A:g1")
     = sync_meta "A:g1" "A".
Proof. vm_compute. repeat split. Qed.

(** ** Runs that end normally *)

Section Inversion.

Context {W : Type}.





Lemma last_write_snoc (l : list action) (a : action) (l' : list action) :
  is_write a = true -> writes l' = [] ->
  last_write (l ++ a :: l') = Some a.
Proof.
  intros Ha Hl'. unfold last_write. rewrite writes_app. unfold writes at 2.
  simpl. rewrite Ha. fold (writes l'). rewrite Hl'. apply last_snoc.
Qed.

End Inversion.

(** ** Visibility enforcement *)

Section Visibility.

Context {W : Type}.
Variable gw : Gateway W.
Variable cfg : config.



Hypothesis update_echo :
  forall svc cal i body w r w1,
    gw_update gw svc cal i body w = (inr r, w1) ->
    ev_visibility r = ev_visibility body.
Hypothesis insert_echo :
  forall svc cal body w r w1,
    gw_insert gw svc cal body w = (inr r, w1) ->
    ev_visibility r = ev_visibility body.


End Visibility.





(** ** Two runs of [main] on explicit inputs *)

(** C1 at a failing input.  [sync_tag_in_description] is "[synced]";
    chain [c1] has its origin event on calendar A, the last one edited,
    with the description "Bring the x-rays", and on calendar B the mirror
    that [create_copy] made of it, whose description is that text
    followed by the note.  [update_if_diff] compares the description of
    the mirror with the description of the source before the note is
    appended, finds them different and sends an update whose body is the
    mirror as it was listed: a write, although no member has changed,
    and one that leaves the calendars as they are, so every later pass
    over this input sends it again. *)
Theorem C1_unchanged_mirror_is_rewritten :
  fst (diff_fields Sample.noted_mirror
         (canonical_event_dict Sample.described_origin) Sample.cfg_note)
  = Sample.noted_mirror
  /\ main (Script.gateway (Sample.chain_c1_described Sample.noted_mirror))
       Script.plain_id Sample.cfg_note Sample.two_calendars tt
     = (Val tt, tt,
        [ListEvents "tokens/a.json" "primary"; Stdout "A: found 1 events.";
         ListEvents "tokens/b.json" "primary"; Stdout "B: found 1 events.";
         GetEvent "tokens/a.json" "primary" "e1";
         GetEvent "tokens/b.json" "primary" "b1";
         FindByChain "tokens/a.json" "primary" "c1";
         FindByChain "tokens/b.json" "primary" "c1";
         UpdateEvent "tokens/b.json" "primary" "b1" Sample.noted_mirror;
         Stdout "[chain c1] Aggiornato in B";
         Stdout "Done."])
  /\ writes
       (main (Script.gateway (Sample.chain_c1_described Sample.noted_mirror))
          Script.plain_id Sample.cfg_note Sample.two_calendars tt).2
     = [UpdateEvent "tokens/b.json" "primary" "b1" Sample.noted_mirror].
Proof. vm_compute. repeat split. Qed.

(** C7 at a failing input.  Chain [c1] has its origin event on calendar
    A and a mirror on calendar B whose visibility is [default], while B
    resolves to [private]; calendar C holds no mirror yet.  The update
    that enforces the visibility on B fails.  That request stands outside
    every [try] of [main]: the [HttpError] ends the run, calendar C is
    never looked up and "Done." is never printed.  When the same update
    succeeds, the pass goes on to calendar C and ends with "Done.". *)
Theorem C7_visibility_failure_aborts_run :
  main (Script.gateway
          (Sample.chain_c1 Sample.edited_mirror Sample.update_on_B_fails))
    Script.plain_id Sample.cfg0 Sample.three_calendars tt
  = (Exc (HttpError "503 backend error"), tt,
     [ListEvents "tokens/a.json" "primary"; Stdout "A: found 1 events.";
      ListEvents "tokens/b.json" "primary"; Stdout "B: found 1 events.";
      ListEvents "tokens/c.json" "team"; Stdout "C: found 0 events.";
      GetEvent "tokens/a.json" "primary" "e1";
      GetEvent "tokens/b.json" "primary" "b1";
      FindByChain "tokens/a.json" "primary" "c1";
      FindByChain "tokens/b.json" "primary" "c1";
      UpdateEvent "tokens/b.json" "primary" "b1"
        (set_visibility (Some "private") Sample.edited_mirror)])
  /\ main (Script.gateway (Sample.chain_c1 Sample.edited_mirror Sample.never))
       Script.plain_id Sample.cfg0 Sample.three_calendars tt
     = (Val tt, tt,
        [ListEvents "tokens/a.json" "primary"; Stdout "A: found 1 events.";
         ListEvents "tokens/b.json" "primary"; Stdout "B: found 1 events.";
         ListEvents "tokens/c.json" "team"; Stdout "C: found 0 events.";
         GetEvent "tokens/a.json" "primary" "e1";
         GetEvent "tokens/b.json" "primary" "b1";
         FindByChain "tokens/a.json" "primary" "c1";
         FindByChain "tokens/b.json" "primary" "c1";
         UpdateEvent "tokens/b.json" "primary" "b1"
           (set_visibility (Some "private") Sample.edited_mirror);
         Stdout "[chain c1] Aggiornato in B";
         FindByChain "tokens/c.json" "team" "c1";
         InsertEvent "tokens/c.json" "team"
           (clone_of Sample.edited_mirror Sample.cfg0 "A" "c1");
         UpdateEvent "tokens/c.json" "team" "new"
           (set_visibility (Some "public")
              (Script.with_id "new"
                 (clone_of Sample.edited_mirror Sample.cfg0 "A" "c1")));
         Stdout "[chain c1] Creato mancante in C";
         Stdout "Done."]).
Proof. vm_compute. split; reflexivity. Qed.

(** X1 (the part of C1 about [update_if_diff] alone): [update_if_diff]
    answers [changed = True] only when the location, the description,
    the start or the end of the mirror, read through
    [canonical_event_dict], differs from that of the source; when the
    four agree it sends nothing and answers the mirror with
    [changed = False]. *)
Theorem X1_changed_only_on_difference :
  forall {W : Type} (gw : Gateway W) (cfg : config) (svc cal : string)
         (existing source_like r : event) (w w1 : W) (log : list action),
    update_if_diff gw svc cal existing source_like cfg w
    = (Val (r, true), w1, log) ->
    ev_location (canonical_event_dict existing)
    <> ev_location (canonical_event_dict source_like)
    \/ ev_description (canonical_event_dict existing)
       <> ev_description (canonical_event_dict source_like)
    \/ ev_start (canonical_event_dict existing)
       <> ev_start (canonical_event_dict source_like)
    \/ ev_end (canonical_event_dict existing)
       <> ev_end (canonical_event_dict source_like).
Proof.
  intros W gw cfg svc cal existing source_like r w w1 log E.
  apply update_if_diff_changed in E. unfold same_content in E.
  destruct (decide (ev_location (canonical_event_dict existing)
                    = ev_location (canonical_event_dict source_like)));
    [|left; assumption].
  destruct (decide (ev_description (canonical_event_dict existing)
                    = ev_description (canonical_event_dict source_like)));
    [|right; left; assumption].
  destruct (decide (ev_start (canonical_event_dict existing)
                    = ev_start (canonical_event_dict source_like)));
    [|right; right; left; assumption].
  destruct (decide (ev_end (canonical_event_dict existing)
                    = ev_end (canonical_event_dict source_like)));
    [|right; right; right; assumption].
  exfalso. apply E. auto.
Qed.

Lemma X1_changed_only_on_difference_witness :
  ev_location (canonical_event_dict Sample.noted_mirror)
  <> ev_location (canonical_event_dict Sample.described_origin)
  \/ ev_description (canonical_event_dict Sample.noted_mirror)
     <> ev_description (canonical_event_dict Sample.described_origin)
  \/ ev_start (canonical_event_dict Sample.noted_mirror)
     <> ev_start (canonical_event_dict Sample.described_origin)
  \/ ev_end (canonical_event_dict Sample.noted_mirror)
     <> ev_end (canonical_event_dict Sample.described_origin).
Proof.
  apply (X1_changed_only_on_difference
           (Script.gateway (Sample.chain_c1_described Sample.noted_mirror))
           Sample.cfg_note "tokens/b.json" "primary" Sample.noted_mirror
           Sample.described_origin Sample.noted_mirror tt tt
           [UpdateEvent "tokens/b.json" "primary" "b1" Sample.noted_mirror]).
  vm_compute. reflexivity.
Defined.

(** * Further properties of the helpers *)

(** ** Strings *)

Lemma prefix_nil (t : string) : String.prefix "" t = true.
Proof. destruct t; reflexivity. Qed.

Lemma prefix_refl (s : string) : String.prefix s s = true.
Proof.
  induction s as [|a s IH]; [reflexivity|].
  simpl. destruct (Ascii.ascii_dec a a); [exact IH|congruence].
Qed.

Lemma prefix_app (p t : string) : String.prefix p (p +:+ t) = true.
Proof.
  induction p as [|a p IH]; [apply prefix_nil|].
  simpl. destruct (Ascii.ascii_dec a a); [exact IH|congruence].
Qed.

Lemma contains_refl (s : string) : Str.contains s s = true.
Proof.
  destruct s as [|a s]; [reflexivity|].
  cbn [Str.contains]. rewrite prefix_refl. reflexivity.
Qed.

Lemma contains_app_r (n a b : string) :
  Str.contains n b = true -> Str.contains n (a +:+ b) = true.
Proof.
  intros H. induction a as [|c a IH]; [exact H|].
  change (String c a +:+ b) with (String c (a +:+ b)).
  cbn [Str.contains]. rewrite IH. apply orb_true_r.
Qed.

(** ** [add_sync_note] and [title_with_origin] *)

Lemma add_sync_note_contains (desc note : string) :
  Str.contains note (add_sync_note desc note) = true.
Proof.
  unfold add_sync_note. destruct note as [|c note].
  - simpl. destruct desc; reflexivity.
  - cbn [Str.truthy andb].
    destruct (Str.contains (String c note) desc) eqn:E; cbn [negb]; [exact E|].
    destruct (Str.truthy (Str.strip desc)).
    + apply contains_app_r.
      apply (contains_app_r _ (String "010" (String "010" ""))), contains_refl.
    + apply contains_refl.
Qed.

(** X2: the sync note is appended at most once.  Whatever the
    description and the note, the result of [add_sync_note] contains the
    note, and applying [add_sync_note] to its own result with the same
    note changes nothing; an empty note leaves every description as it
    is. *)
Theorem X2_add_sync_note_idempotent :
  forall desc note : string,
    add_sync_note (add_sync_note desc note) note = add_sync_note desc note
    /\ Str.contains note (add_sync_note desc note) = true
    /\ add_sync_note desc "" = desc.
Proof.
  intros desc note. split; [|split; [apply add_sync_note_contains|reflexivity]].
  pose proof (add_sync_note_contains desc note) as H.
  unfold add_sync_note at 1. rewrite H. cbn [negb]. rewrite andb_false_r.
  reflexivity.
Qed.

(** X3: the origin prefix is put at most once.  With prefixing enabled
    the result of [title_with_origin] starts with "[origin] ", and
    applying [title_with_origin] to its own result changes nothing (with
    prefixing disabled the title is returned as it is), so a copy of a
    copy keeps a single prefix. *)
Theorem X3_title_with_origin_idempotent :
  forall (prefix_enabled : bool) (origin_name title : string),
    title_with_origin prefix_enabled origin_name
      (title_with_origin prefix_enabled origin_name title)
    = title_with_origin prefix_enabled origin_name title
    /\ Str.startswith (title_with_origin true origin_name title)
         ("[" +:+ origin_name +:+ "] ") = true
    /\ title_with_origin false origin_name title = title.
Proof.
  intros en o t. split; [|split; [|reflexivity]].
  - unfold title_with_origin. destruct en; cbn [negb]; [|reflexivity].
    destruct (Str.startswith t ("[" +:+ o +:+ "] ")) eqn:E.
    + rewrite E. reflexivity.
    + unfold Str.startswith at 1. rewrite prefix_app. reflexivity.
  - unfold title_with_origin. cbn [negb].
    destruct (Str.startswith t ("[" +:+ o +:+ "] ")) eqn:E; [exact E|].
    unfold Str.startswith. apply prefix_app.
Qed.

(** ** The metadata bag: [get_private_meta] and [set_private_meta] *)

(** X4: [set_private_meta] merges and does not clobber.  Reading the
    private metadata back gives the written keys over the keys that were
    there: a written key reads as written, every other key reads as
    before; the shared extended properties are kept, and no other key of
    the event changes. *)
Theorem X4_set_private_meta_merges :
  forall (ev : event) (d : sdict),
    get_private_meta (set_private_meta ev d) = d ∪ get_private_meta ev
    /\ (forall k v, d !! k = Some v ->
                    get_private_meta (set_private_meta ev d) !! k = Some v)
    /\ (forall k, d !! k = None ->
                  get_private_meta (set_private_meta ev d) !! k
                  = get_private_meta ev !! k)
    /\ (ep_shared <$> ev_extendedProperties (set_private_meta ev d))
       = Some (ev_extendedProperties ev ≫= ep_shared)
    /\ set_extendedProperties (ev_extendedProperties ev) (set_private_meta ev d)
       = ev.
Proof.
  intros ev d.
  assert (get_private_meta (set_private_meta ev d) = d ∪ get_private_meta ev) as E.
  { unfold get_private_meta, set_private_meta. simpl.
    destruct (ev_extendedProperties ev) as [[p s]|]; reflexivity. }
  split; [exact E|]. split; [|split; [|split]].
  - intros k v Hk. rewrite E. apply lookup_union_Some_l, Hk.
  - intros k Hk. rewrite E. apply lookup_union_r, Hk.
  - unfold set_private_meta. simpl.
    destruct (ev_extendedProperties ev) as [[p s]|]; reflexivity.
  - destruct ev; reflexivity.
Qed.

(** ** The visibility policy *)

(** X5: whatever the configuration holds, the visibility that
    [desired_copy_visibility_for] answers is one of the four values the
    provider accepts: a misspelt [copy_visibility] or
    [default_copy_visibility] is never sent. *)
Theorem X5_desired_visibility_is_valid :
  forall (c : calendar) (cfg : config),
    allowed_visibility (desired_copy_visibility_for c cfg) = true.
Proof.
  intros c cfg. unfold desired_copy_visibility_for.
  destruct (copy_visibility c) as [v|]; simpl.
  - destruct (allowed_visibility v) eqn:Ev; [exact Ev|].
    destruct (default_copy_visibility cfg) as [g|]; simpl; [|reflexivity].
    destruct (allowed_visibility g) eqn:Eg; [exact Eg|reflexivity].
  - destruct (default_copy_visibility cfg) as [g|]; simpl; [|reflexivity].
    destruct (allowed_visibility g) eqn:Eg; [exact Eg|reflexivity].
Qed.

(** ** The body of an update *)

(** X6: the body that [update_if_diff] computes for a mirror agrees with
    the source on location, start and end (a missing key counting as
    empty), its description is the description of the source with the
    sync note added, and every other key is the one of the mirror: the
    title, the visibility, the id, the reminders and the metadata are
    never taken from the source. *)
Theorem X6_update_body :
  forall (existing source_like : event) (cfg : config),
    let desired := fst (diff_fields existing source_like cfg) in
    (ev_location (canonical_event_dict desired)
     = ev_location (canonical_event_dict source_like)
     /\ ev_start (canonical_event_dict desired)
        = ev_start (canonical_event_dict source_like)
     /\ ev_end (canonical_event_dict desired)
        = ev_end (canonical_event_dict source_like)
     /\ ev_description desired
        = Some (add_sync_note (default "" (ev_description source_like))
                  (default "" (sync_tag_in_description cfg))))
    /\ (ev_id desired = ev_id existing
        /\ ev_summary desired = ev_summary existing
        /\ ev_visibility desired = ev_visibility existing
        /\ ev_reminders desired = ev_reminders existing
        /\ ev_eventType desired = ev_eventType existing
        /\ ev_updated desired = ev_updated existing
        /\ ev_extendedProperties desired = ev_extendedProperties existing).
Proof.
  intros existing source_like cfg. unfold diff_fields. simpl.
  repeat case_bool_decide; simpl in *;
    repeat match goal with
           | H : ~ (_ <> _) |- _ => apply dec_stable in H
           end;
    repeat split; try reflexivity; try congruence.
Qed.

(** ** Source selection: [max(items, key=upd_ts)] *)

Lemma max_by_updated_split (items : list member) :
  forall (best : member) (pre mid : list member),
    (forall x, In x pre -> (upd_ts (snd x) < upd_ts (snd best))%Z) ->
    (forall x, In x mid -> (upd_ts (snd x) <= upd_ts (snd best))%Z) ->
    exists l1 l2,
      pre ++ best :: mid ++ items = l1 ++ max_by_updated best items :: l2
      /\ (forall x, In x l1 ->
                    (upd_ts (snd x) < upd_ts (snd (max_by_updated best items)))%Z)
      /\ (forall x, In x l2 ->
                    (upd_ts (snd x) <= upd_ts (snd (max_by_updated best items)))%Z).
Proof.
  induction items as [|it rest IH]; intros best pre mid Hpre Hmid.
  - exists pre, mid. rewrite app_nil_r. auto.
  - simpl. destruct (Z.ltb_spec (upd_ts (snd best)) (upd_ts (snd it))) as [Hlt|Hge].
    + destruct (IH it (pre ++ best :: mid) []) as (l1 & l2 & E & H1 & H2).
      * intros x Hx. apply in_app_or in Hx as [Hx|[<-|Hx]].
        -- specialize (Hpre x Hx). lia.
        -- exact Hlt.
        -- specialize (Hmid x Hx). lia.
      * intros x [].
      * exists l1, l2. split; [|auto]. rewrite <- E. simpl.
        rewrite <- app_assoc. reflexivity.
    + destruct (IH best pre (mid ++ [it])) as (l1 & l2 & E & H1 & H2).
      * exact Hpre.
      * intros x Hx. apply in_app_or in Hx as [Hx|[<-|[]]]; [auto|exact Hge].
      * exists l1, l2. split; [|auto]. rewrite <- E.
        rewrite <- app_assoc. reflexivity.
Qed.

(** X7: the propagation source is a member of the chain with the latest
    [updated] instant, and among members with that instant it is the
    first in the order of the chain: every member before it is strictly
    older, every member after it is not newer.  A member without
    [updated] counts as the epoch. *)
Theorem X7_source_is_first_latest :
  forall (first : member) (rest : list member),
    exists l1 l2,
      first :: rest = l1 ++ max_by_updated first rest :: l2
      /\ (forall x, In x l1 ->
            (upd_ts (snd x) < upd_ts (snd (max_by_updated first rest)))%Z)
      /\ (forall x, In x l2 ->
            (upd_ts (snd x) <= upd_ts (snd (max_by_updated first rest)))%Z).
Proof.
  intros first rest.
  destruct (max_by_updated_split rest first [] []) as (l1 & l2 & E & H1 & H2);
    [intros x []|intros x []|].
  exists l1, l2. auto.
Qed.

(** ** Tagged events *)

Lemma sync_meta_lookups (chain_id origin_name : string) :
  sync_meta chain_id origin_name !! "trisync" = Some "1"
  /\ sync_meta chain_id origin_name !! "trisync_chain_id" = Some chain_id
  /\ sync_meta chain_id origin_name !! "trisync_origin" = Some origin_name.
Proof. unfold sync_meta. repeat split; simplify_map_eq; reflexivity. Qed.

Lemma get_set_private_meta (ev : event) (d : sdict) :
  get_private_meta (set_private_meta ev d) = d ∪ get_private_meta ev.
Proof.
  unfold get_private_meta, set_private_meta. simpl.
  destruct (ev_extendedProperties ev) as [[p s]|]; reflexivity.
Qed.

Lemma tagged_lookups (ev : event) (chain_id origin_name : string) :
  get_private_meta (set_private_meta ev (sync_meta chain_id origin_name))
    !! "trisync" = Some "1"
  /\ get_private_meta (set_private_meta ev (sync_meta chain_id origin_name))
       !! "trisync_chain_id" = Some chain_id
  /\ get_private_meta (set_private_meta ev (sync_meta chain_id origin_name))
       !! "trisync_origin" = Some origin_name.
Proof.
  destruct (sync_meta_lookups chain_id origin_name) as (H1 & H2 & H3).
  rewrite get_set_private_meta.
  repeat split; apply lookup_union_Some_l; assumption.
Qed.

(** X8: an event tagged by the program, be it a source after
    [set_private_meta] or the clone that [create_copy] inserts, is
    recognised by every later pass: the classification loop files it
    under its chain id whatever the filter would say (the clone's title
    carries a known prefix), it passes the test of the cascade delete,
    and [perform_safe_delete] reads its origin. *)
Theorem X8_tagged_event_is_tracked :
  forall (ev source_event : event) (chain_id origin_name nm : string)
         (cfg cfg' : config) (kp : list string) (st : chain_map * list member),
    let tagged := set_private_meta ev (sync_meta chain_id origin_name) in
    let clone := clone_of source_event cfg origin_name chain_id in
    (tracked_chain tagged = Some chain_id
     /\ still_tagged chain_id tagged = true
     /\ first_origin [(nm, tagged)] = Some origin_name
     /\ classify_event cfg' kp nm st tagged
        = (chain_append chain_id (nm, tagged) (fst st), snd st))
    /\ (tracked_chain clone = Some chain_id
        /\ still_tagged chain_id clone = true
        /\ first_origin [(nm, clone)] = Some origin_name
        /\ classify_event cfg' kp nm st clone
           = (chain_append chain_id (nm, clone) (fst st), snd st)).
Proof.
  intros ev source_event chain_id origin_name nm cfg cfg' kp st.
  assert (forall e : event,
            let t := set_private_meta e (sync_meta chain_id origin_name) in
            tracked_chain t = Some chain_id
            /\ still_tagged chain_id t = true
            /\ first_origin [(nm, t)] = Some origin_name
            /\ classify_event cfg' kp nm st t
               = (chain_append chain_id (nm, t) (fst st), snd st)) as G.
  { intros e t. destruct (tagged_lookups e chain_id origin_name) as (H1 & H2 & H3).
    assert (tracked_chain t = Some chain_id) as Ht.
    { unfold tracked_chain. subst t. rewrite bool_decide_true by exact H1.
      exact H2. }
    split; [exact Ht|]. split; [|split].
    - unfold still_tagged. subst t.
      rewrite !bool_decide_true by assumption. reflexivity.
    - simpl. subst t. rewrite H3. reflexivity.
    - apply classify_event_tracked, Ht. }
  split; [apply G|]. unfold clone_of. apply G.
Qed.

(** ** Requests that fail *)

Section Failures.

Context {W : Type}.
Variable gw : Gateway W.
Variables (calendars : list calendar) (cfg : config).

(** X9: tagging a new origin never ends the run.  For a candidate that
    is not of type [fromGmail], on a configured calendar, one patch is
    sent with the merged private metadata; when the patch fails a
    warning naming the replica goes to stderr and the loop goes on.
    Either way the event carries the tag in memory afterwards, which is
    what the chain seeded in this pass records. *)
Theorem X9_tag_source_run :
  forall (src_name chain_id i : string) (ev : event) (c : calendar) (w : W),
    default "" (ev_eventType ev) <> "fromGmail" ->
    calendar_named calendars src_name = Some c ->
    ev_id ev = Some i ->
    tag_source gw calendars src_name chain_id ev w
    = match gw_patch gw (service c) (calendar_id c) i
              (sync_meta chain_id src_name ∪ get_private_meta ev) w with
      | (inr _, w1) =>
          (Val (set_private_meta ev (sync_meta chain_id src_name)), w1,
           [PatchEvent (service c) (calendar_id c) i
              (sync_meta chain_id src_name ∪ get_private_meta ev)])
      | (inl msg, w1) =>
          (Val (set_private_meta ev (sync_meta chain_id src_name)), w1,
           [PatchEvent (service c) (calendar_id c) i
              (sync_meta chain_id src_name ∪ get_private_meta ev);
            Stderr ("Warning: cannot save meta on " +:+ src_name +:+ ": "
                    +:+ msg)])
      end.
Proof.
  intros src_name chain_id i ev c w Hty Hc Hi.
  unfold tag_source, try_except, bind, next_calendar.
  unfold calendar_named in Hc. rewrite Hc. unfold ret at 1 2 3.
  destruct (String.eqb_spec (default "" (ev_eventType ev)) "fromGmail")
    as [E|_]; [contradiction|]. cbn [negb].
  unfold item_id. cbn [ev_id set_private_meta set_extendedProperties].
  rewrite Hi. unfold ret at 1. unfold request.
  rewrite get_set_private_meta.
  destruct (gw_patch gw (service c) (calendar_id c) i
              (sync_meta chain_id src_name ∪ get_private_meta ev) w)
    as [[msg|r] w1]; reflexivity.
Qed.

Lemma existsb_origin_present (o : string) (items : list member) (it : member) :
  In it items -> fst it = o ->
  existsb (fun x : member => String.eqb (fst x) o) items = true.
Proof.
  intros Hin Ho. apply existsb_exists. exists it. split; [exact Hin|].
  apply String.eqb_eq, Ho.
Qed.

(** X10: [perform_safe_delete] leaves a live chain alone.  When no
    member records an origin, when the recorded origin is the empty
    string, or when some member lives on the recorded origin replica, it
    answers [False] without sending a request or printing a line,
    whatever [sync_delete] says. *)
Theorem X10_live_chain_is_not_touched :
  forall (chain_id : string) (items : list member) (w : W),
    first_origin items = None
    \/ first_origin items = Some ""
    \/ (exists o it, first_origin items = Some o /\ In it items /\ fst it = o) ->
    perform_safe_delete gw calendars chain_id items cfg w = (Val false, w, []).
Proof.
  intros chain_id items w [H|[H|(o & it & H & Hin & Ho)]];
    unfold perform_safe_delete; rewrite H; try reflexivity.
  destruct (Str.truthy o); [|reflexivity]. cbn [negb].
  rewrite (existsb_origin_present o items it Hin Ho). reflexivity.
Qed.

(** X11: a content update that fails is caught inside [update_if_diff].
    When a field differs and the mirror has an id, one update with the
    computed body is sent; if it succeeds the answer of the gateway is
    returned with [changed = True], if it fails one line naming the
    calendar goes to stderr and the mirror is returned unchanged with
    [changed = False].  A mirror without an id raises [KeyError] before
    anything is sent. *)
Theorem X11_update_if_diff_run :
  forall (svc cal : string) (existing source_like : event) (w : W),
    ~ same_content existing source_like ->
    update_if_diff gw svc cal existing source_like cfg w
    = match ev_id existing with
      | None => (Exc (KeyError "id"), w, [])
      | Some i =>
          match gw_update gw svc cal i
                  (fst (diff_fields existing source_like cfg)) w with
          | (inr r, w1) =>
              (Val (r, true), w1,
               [UpdateEvent svc cal i
                  (fst (diff_fields existing source_like cfg))])
          | (inl msg, w1) =>
              (Val (existing, false), w1,
               [UpdateEvent svc cal i
                  (fst (diff_fields existing source_like cfg));
                Stderr ("Update failed on " +:+ cal +:+ ": " +:+ msg)])
          end
      end.
Proof.
  intros svc cal existing source_like w Hdiff.
  apply (diff_fields_changed cfg) in Hdiff. unfold update_if_diff.
  destruct (diff_fields existing source_like cfg) as [desired changed].
  simpl in Hdiff. subst changed. simpl fst.
  unfold try_http, try_except, bind, item_id.
  destruct (ev_id existing) as [i|]; [|reflexivity].
  unfold ret at 1. unfold events_update, request.
  destruct (gw_update gw svc cal i desired w) as [[msg|r] w1]; reflexivity.
Qed.

End Failures.

Lemma X9_tag_source_run_witness :
  tag_source (Script.gateway Sample.quiet) Sample.two_calendars "A" "A:e1"
    (Sample.titled "e1" "Dentist") tt
  = match gw_patch (Script.gateway Sample.quiet) (service Sample.calA)
            (calendar_id Sample.calA) "e1"
            (sync_meta "A:e1" "A" ∪ get_private_meta (Sample.titled "e1" "Dentist"))
            tt with
    | (inr _, w1) =>
        (Val (set_private_meta (Sample.titled "e1" "Dentist")
                (sync_meta "A:e1" "A")), w1,
         [PatchEvent (service Sample.calA) (calendar_id Sample.calA) "e1"
            (sync_meta "A:e1" "A"
             ∪ get_private_meta (Sample.titled "e1" "Dentist"))])
    | (inl msg, w1) =>
        (Val (set_private_meta (Sample.titled "e1" "Dentist")
                (sync_meta "A:e1" "A")), w1,
         [PatchEvent (service Sample.calA) (calendar_id Sample.calA) "e1"
            (sync_meta "A:e1" "A"
             ∪ get_private_meta (Sample.titled "e1" "Dentist"));
          Stderr ("Warning: cannot save meta on " +:+ "A" +:+ ": " +:+ msg)])
    end.
Proof.
  apply (X9_tag_source_run (Script.gateway Sample.quiet) Sample.two_calendars
           "A" "A:e1" "e1" (Sample.titled "e1" "Dentist") Sample.calA tt).
  - discriminate.
  - reflexivity.
  - reflexivity.
Defined.

Lemma X10_live_chain_is_not_touched_witness :
  perform_safe_delete (Script.gateway Sample.quiet) Sample.two_calendars "c1"
    [("A", Sample.origin_e1); ("B", Sample.mirror "b1" "c1" "A")]
    Sample.cfg_cascade tt
  = (Val false, tt, []).
Proof.
  apply (X10_live_chain_is_not_touched (Script.gateway Sample.quiet)
           Sample.two_calendars Sample.cfg_cascade "c1"
           [("A", Sample.origin_e1); ("B", Sample.mirror "b1" "c1" "A")] tt).
  right. right. exists "A", ("A", Sample.origin_e1).
  split; [vm_compute; reflexivity|]. split; [left; reflexivity|reflexivity].
Defined.

Lemma X11_update_if_diff_run_witness :
  update_if_diff
    (Script.gateway (Sample.chain_c1 Sample.noted_mirror Sample.update_on_B_fails))
    "tokens/b.json" "primary" Sample.noted_mirror Sample.described_origin
    Sample.cfg_note tt
  = match ev_id Sample.noted_mirror with
    | None => (Exc (KeyError "id"), tt, [])
    | Some i =>
        match gw_update
                (Script.gateway
                   (Sample.chain_c1 Sample.noted_mirror Sample.update_on_B_fails))
                "tokens/b.json" "primary" i
                (fst (diff_fields Sample.noted_mirror Sample.described_origin
                        Sample.cfg_note)) tt with
        | (inr r, w1) =>
            (Val (r, true), w1,
             [UpdateEvent "tokens/b.json" "primary" i
                (fst (diff_fields Sample.noted_mirror Sample.described_origin
                        Sample.cfg_note))])
        | (inl msg, w1) =>
            (Val (Sample.noted_mirror, false), w1,
             [UpdateEvent "tokens/b.json" "primary" i
                (fst (diff_fields Sample.noted_mirror Sample.described_origin
                        Sample.cfg_note));
              Stderr ("Update failed on " +:+ "primary" +:+ ": " +:+ msg)])
        end
    end.
Proof.
  apply (X11_update_if_diff_run
           (Script.gateway
              (Sample.chain_c1 Sample.noted_mirror Sample.update_on_B_fails))
           Sample.cfg_note "tokens/b.json" "primary" Sample.noted_mirror
           Sample.described_origin tt).
  intros (_ & Hd & _). vm_compute in Hd. discriminate.
Defined.

Section CaughtFailures.

Context {W : Type}.
Variable gw : Gateway W.
Variable cfg : config.

(** X12: on a replica where the lookup finds no mirror, a failure while
    creating it is caught and the loop goes on to the next replica.
    When the insert fails, the run is the lookup, the insert and one
    line on stderr naming the replica.  When the insert succeeds and the
    update that forces the visibility of the new copy fails, the failure
    is caught in the same way. *)
Theorem X12_create_failure_is_caught :
  forall (chain_id source_name : string) (source_event : event) (c : calendar)
         (w w1 : W),
    gw_find gw (service c) (calendar_id c) chain_id w = (inr [], w1) ->
    let origin :=
      default source_name (get_private_meta source_event !! "trisync_origin") in
    let clone := clone_of source_event cfg origin chain_id in
    (forall msg w2,
        gw_insert gw (service c) (calendar_id c) clone w1 = (inl msg, w2) ->
        reconcile_calendar gw cfg chain_id (source_name, source_event) c w
        = (Val tt, w2,
           [FindByChain (service c) (calendar_id c) chain_id;
            InsertEvent (service c) (calendar_id c) clone;
            Stderr ("Insert failed on " +:+ name c +:+ ": " +:+ msg)]))
    /\ (forall copied i msg w2 w3,
          gw_insert gw (service c) (calendar_id c) clone w1 = (inr copied, w2) ->
          ev_visibility copied <> Some (desired_copy_visibility_for c cfg) ->
          ev_id copied = Some i ->
          gw_update gw (service c) (calendar_id c) i
            (set_visibility (Some (desired_copy_visibility_for c cfg)) copied) w2
          = (inl msg, w3) ->
          reconcile_calendar gw cfg chain_id (source_name, source_event) c w
          = (Val tt, w3,
             [FindByChain (service c) (calendar_id c) chain_id;
              InsertEvent (service c) (calendar_id c) clone;
              UpdateEvent (service c) (calendar_id c) i
                (set_visibility (Some (desired_copy_visibility_for c cfg)) copied);
              Stderr ("Insert failed on " +:+ name c +:+ ": " +:+ msg)])).
Proof.
  intros chain_id source_name source_event c w w1 Hfind origin clone.
  assert (forall X (k : option event -> M W X),
            bind (find_event_by_chain gw (service c) (calendar_id c) chain_id) k w
            = let '(r, w2, l2) := k None w1 in
              (r, w2, FindByChain (service c) (calendar_id c) chain_id :: l2)) as Hb.
  { intros X k.
    rewrite (bind_val _ _ w None w1
               [FindByChain (service c) (calendar_id c) chain_id])
      by (rewrite find_event_by_chain_run, Hfind; reflexivity).
    reflexivity. }
  split.
  - intros msg w2 Hins. subst clone origin.
    unfold reconcile_calendar. rewrite Hb.
    unfold try_http, try_except, create_and_force, create_copy, bind, request.
    cbv beta. rewrite Hins. reflexivity.
  - intros copied i msg w2 w3 Hins Hvis Hi Hupd. subst clone origin.
    pose proof (force_visibility_differs gw cfg c copied i w2 Hvis Hi) as Hf.
    rewrite Hupd in Hf.
    unfold reconcile_calendar. rewrite Hb.
    unfold try_http, try_except, create_and_force, create_copy, bind, request.
    cbv beta. rewrite Hins, Hf. reflexivity.
Qed.

(** X13: the bootstrap loop never writes to the calendar the candidate
    lives on, and never creates a second mirror where the lookup by
    chain id finds one: on the source calendar nothing is sent at all,
    on a calendar that holds a mirror the run is the lookup alone. *)
Theorem X13_bootstrap_copy_skips :
  forall (src_name chain_id : string) (ev : event) (c : calendar) (w : W),
    (name c = src_name ->
     bootstrap_copy gw cfg src_name chain_id ev c w = (Val tt, w, []))
    /\ (forall found rest w1,
          name c <> src_name ->
          gw_find gw (service c) (calendar_id c) chain_id w
          = (inr (found :: rest), w1) ->
          bootstrap_copy gw cfg src_name chain_id ev c w
          = (Val tt, w1, [FindByChain (service c) (calendar_id c) chain_id])).
Proof.
  intros src_name chain_id ev c w. split.
  - intros E. unfold bootstrap_copy.
    destruct (String.eqb_spec (name c) src_name); [reflexivity|contradiction].
  - intros found rest w1 Hne Hfind. unfold bootstrap_copy.
    destruct (String.eqb_spec (name c) src_name); [contradiction|].
    rewrite (bind_val _ _ w (Some found) w1
               [FindByChain (service c) (calendar_id c) chain_id])
      by (rewrite find_event_by_chain_run, Hfind; reflexivity).
    reflexivity.
Qed.

End CaughtFailures.

Lemma X12_create_failure_is_caught_witness :
  reconcile_calendar (Script.gateway Sample.insert_fails) Sample.cfg0 "c1"
    ("A", Sample.origin_e1) Sample.calB tt
  = (Val tt, tt,
     [FindByChain (service Sample.calB) (calendar_id Sample.calB) "c1";
      InsertEvent (service Sample.calB) (calendar_id Sample.calB)
        (clone_of Sample.origin_e1 Sample.cfg0
           (default "A" (get_private_meta Sample.origin_e1 !! "trisync_origin"))
           "c1");
      Stderr ("Insert failed on " +:+ name Sample.calB +:+ ": "
              +:+ "503 backend error")]).
Proof.
  refine (proj1 (X12_create_failure_is_caught
                   (Script.gateway Sample.insert_fails) Sample.cfg0 "c1" "A"
                   Sample.origin_e1 Sample.calB tt tt _)
            "503 backend error" tt _); reflexivity.
Defined.

Lemma X13_bootstrap_copy_skips_witness :
  bootstrap_copy (Script.gateway Sample.quiet) Sample.cfg0 "A" "A:e1"
    (Sample.titled "e1" "Dentist") Sample.calA tt
  = (Val tt, tt, []).
Proof.
  apply (proj1 (X13_bootstrap_copy_skips (Script.gateway Sample.quiet)
                  Sample.cfg0 "A" "A:e1" (Sample.titled "e1" "Dentist")
                  Sample.calA tt)).
  reflexivity.
Defined.

(** ** Whole runs of [main] *)

Section WholeRun.

Context {W : Type}.
Variable gw : Gateway W.
Variable sha1_hex : string -> string.
Variable cfg : config.

Lemma emits_fetch_calendar (cal_events : gmap string (list event)) (c : calendar) :
  emits (fun a => listing_action a = true) (fetch_calendar gw cal_events c).
Proof. unfold fetch_calendar, list_events, print. repeat emits_step. Qed.

(** The listing loop ends in an [HttpError] as soon as one calendar
    cannot be listed. *)
Lemma fetch_loop_fails (calendars : list calendar) (c : calendar) :
  In c calendars ->
  (forall w, exists msg w1,
      gw_list gw (service c) (calendar_id c) w = (inl msg, w1)) ->
  forall cal_events w, exists msg w1 log,
    for_fold calendars cal_events (fetch_calendar gw) w
    = (Exc (HttpError msg), w1, log).
Proof.
  intros Hin Hfail. induction calendars as [|x rest IH]; [destruct Hin|].
  intros cal_events w. simpl for_fold. unfold bind at 1.
  destruct (fetch_calendar gw cal_events x w) as [[[m|e] w1] l1] eqn:E.
  - destruct Hin as [->|Hin].
    + exfalso. unfold fetch_calendar, list_events, bind, request in E.
      destruct (Hfail w) as (msg & w2 & Hl). rewrite Hl in E. discriminate.
    + destruct (IH Hin m w1) as (msg & w2 & l2 & E2). rewrite E2.
      eexists _, _, _. reflexivity.
  - unfold fetch_calendar, list_events, bind, request in E.
    destruct (gw_list gw (service x) (calendar_id x) w) as [[msg|evs] w2].
    + inversion E; subst. eexists _, _, _. reflexivity.
    + discriminate.
Qed.

(** X14: a calendar that cannot be listed ends the run before anything
    else happens.  If the list request of one configured calendar fails,
    [main] ends in that [HttpError], and all it has done is listing: no
    event was fetched, looked up, created, changed or deleted on any
    calendar. *)
Theorem X14_list_failure_aborts :
  forall (calendars : list calendar) (c : calendar) (w : W),
    In c calendars ->
    (forall w0, exists msg w1,
        gw_list gw (service c) (calendar_id c) w0 = (inl msg, w1)) ->
    exists msg w1 log,
      main gw sha1_hex cfg calendars w = (Exc (HttpError msg), w1, log)
      /\ Forall (fun a => listing_action a = true) log
      /\ writes log = [].
Proof.
  intros calendars c w Hin Hfail.
  destruct (fetch_loop_fails calendars c Hin Hfail ∅ w) as (msg & w1 & log & E).
  exists msg, w1, log. unfold main. rewrite (bind_exc _ _ w _ w1 log E).
  split; [reflexivity|].
  pose proof (emits_for_fold (fun a => listing_action a = true) calendars
                (fetch_calendar gw) emits_fetch_calendar ∅ w) as Hl.
  rewrite E in Hl. simpl in Hl. split; [exact Hl|].
  clear E. induction Hl as [|a l Ha _ IH]; [reflexivity|].
  unfold writes in *. simpl. destruct a; try discriminate; exact IH.
Qed.

Lemma emits_no_delete_reconcile (chain_id : string) (source : member) (c : calendar) :
  emits (fun a => is_delete a = false) (reconcile_calendar gw cfg chain_id source c).
Proof.
  destruct source as [sn se].
  unfold reconcile_calendar, find_event_by_chain, update_if_diff, item_id,
    events_update, print, eprint.
  apply emits_bind; [repeat emits_step|intros [t|]].
  - apply emits_bind.
    + destruct (diff_fields t (canonical_event_dict se) cfg) as [d ch].
      repeat emits_step.
    + intros [u ch]. apply emits_bind; [apply emits_force_visibility; reflexivity|].
      intros f. repeat emits_step.
  - apply emits_try_http; [|intros e; apply emits_emit; reflexivity].
    apply emits_bind; [|intros ?; apply emits_emit; reflexivity].
    apply emits_create_and_force; reflexivity.
Qed.

Lemma emits_no_delete_bootstrap_copy (src chain_id : string) (ev : event) (c : calendar) :
  emits (fun a => is_delete a = false) (bootstrap_copy gw cfg src chain_id ev c).
Proof.
  unfold bootstrap_copy, find_event_by_chain, print, eprint.
  destruct (String.eqb (name c) src); [apply emits_ret|].
  apply emits_bind; [repeat emits_step|intros [found|]]; [apply emits_ret|].
  apply emits_try_http; [|intros e; apply emits_emit; reflexivity].
  apply emits_bind; [|intros ?; apply emits_emit; reflexivity].
  apply emits_create_and_force; reflexivity.
Qed.

Lemma emits_no_delete_tag_source (calendars : list calendar) (src chain_id : string)
    (ev : event) :
  emits (fun a => is_delete a = false) (tag_source gw calendars src chain_id ev).
Proof.
  unfold tag_source, next_calendar, item_id, print, eprint.
  apply emits_bind; [repeat emits_step|intros [[svc cal]|]]; repeat emits_step.
Qed.

Lemma emits_no_delete_process_chain (calendars : list calendar)
    (entry : string * list member) :
  default false (sync_delete cfg) = false ->
  emits (fun a => is_delete a = false) (process_chain gw calendars cfg entry).
Proof.
  intros Hsd. destruct entry as [chain_id items]. unfold process_chain.
  apply emits_bind.
  - eapply emits_weaken; [|apply emits_refresh].
    intros [] ?; (discriminate || reflexivity).
  - intros items'. apply emits_bind.
    + unfold perform_safe_delete. rewrite Hsd. repeat emits_step.
    + intros [|]; [apply emits_ret|]. destruct items' as [|first rest];
        [apply emits_ret|].
      apply emits_for_each. intros c. apply emits_no_delete_reconcile.
Qed.

(** X15: with [sync_delete] absent or false, a run of [main] never sends
    a delete request, whatever the calendars hold and whatever the
    gateway answers. *)
Theorem X15_no_delete_without_sync_delete :
  forall (calendars : list calendar) (w : W),
    default false (sync_delete cfg) = false ->
    Forall (fun a => is_delete a = false)
           (main gw sha1_hex cfg calendars w).2.
Proof.
  intros calendars w Hsd. revert w.
  change (emits (fun a => is_delete a = false) (main gw sha1_hex cfg calendars)).
  unfold main. apply emits_bind.
  - apply emits_for_fold. intros s c. eapply emits_weaken;
      [|apply emits_fetch_calendar].
    intros [] ?; (discriminate || reflexivity).
  - intros cal_events.
    destruct (classify cfg (known_prefixes_of calendars) calendars cal_events)
      as [chains unsynced].
    apply emits_bind.
    + apply emits_for_fold. intros s [src ev]. unfold bootstrap_one, item_id.
      apply emits_bind; [repeat emits_step|intros i].
      apply emits_bind; [apply emits_no_delete_tag_source|intros ev'].
      apply emits_bind; [|intros ?; apply emits_ret].
      apply emits_for_each. intros c. apply emits_no_delete_bootstrap_copy.
    + intros chains'. apply emits_bind; [|intros ?; apply emits_emit; reflexivity].
      apply emits_for_each. intros entry.
      apply emits_no_delete_process_chain, Hsd.
Qed.

End WholeRun.

Lemma X14_list_failure_aborts_witness :
  exists msg w1 log,
    main (Script.gateway Sample.list_of_B_fails) Script.plain_id Sample.cfg0
      Sample.two_calendars tt
    = (Exc (HttpError msg), w1, log)
    /\ Forall (fun a => listing_action a = true) log
    /\ writes log = [].
Proof.
  apply (X14_list_failure_aborts (Script.gateway Sample.list_of_B_fails)
           Script.plain_id Sample.cfg0 Sample.two_calendars Sample.calB tt).
  - right. left. reflexivity.
  - intros []. eexists _, _. reflexivity.
Defined.

Lemma X15_no_delete_without_sync_delete_witness :
  Forall (fun a => is_delete a = false)
    (main (Script.gateway (Sample.chain_c1 Sample.edited_mirror Sample.never))
       Script.plain_id Sample.cfg0 Sample.three_calendars tt).2.
Proof.
  apply (X15_no_delete_without_sync_delete
           (Script.gateway (Sample.chain_c1 Sample.edited_mirror Sample.never))
           Script.plain_id Sample.cfg0 Sample.three_calendars tt).
  reflexivity.
Defined.

(** ** The paging loop *)

Section PagingFacts.

Context {W : Type}.
Variable list_page : string -> string -> option string -> W -> (string + page) * W.
Variables (svc calendar_id : string).

Lemma list_events_loop_drains (ps : list page) :
  forall page_token w w1 events fuel,
    served list_page svc calendar_id page_token w ps w1 ->
    length ps <= fuel ->
    list_events_loop list_page fuel svc calendar_id events page_token w
    = (Val (Some (events ++ flat_map (fun p => default [] (items p)) ps)), w1,
       replicate (length ps) (ListEvents svc calendar_id)).
Proof.
  induction ps as [|p ps IH]; intros page_token w w1 events fuel Hs Hfuel.
  - inversion Hs.
  - destruct fuel as [|fuel]; [simpl in Hfuel; lia|].
    inversion Hs as [tok w' p' w1' Hp Hlast|tok w' p' w1' ps' w2' Hp Hmore Hrest];
      subst; simpl; unfold bind at 1; unfold request at 1; rewrite Hp.
    + rewrite Hlast. simpl. rewrite app_nil_r. reflexivity.
    + rewrite Hmore.
      rewrite (IH _ _ _ _ fuel Hrest) by (simpl in Hfuel; lia).
      rewrite <- app_assoc. reflexivity.
Qed.

(** X16: [list_events] drains the pages.  When the service serves a
    finite run of pages, each naming the next by a non-empty
    [nextPageToken] and the last one naming none (or an empty one), the
    loop returns the items of all these pages in order, a page without
    [items] adding nothing, after exactly one request per page; any fuel
    that covers the number of pages is enough. *)
Theorem X16_list_events_drains_pages :
  forall (ps : list page) (w w1 : W) (fuel : nat),
    served list_page svc calendar_id None w ps w1 ->
    length ps <= fuel ->
    list_events_paged list_page fuel svc calendar_id w
    = (Val (Some (flat_map (fun p => default [] (items p)) ps)), w1,
       replicate (length ps) (ListEvents svc calendar_id)).
Proof.
  intros ps w w1 fuel Hs Hfuel. unfold list_events_paged.
  rewrite (list_events_loop_drains ps None w w1 [] fuel Hs Hfuel).
  reflexivity.
Qed.

Lemma list_events_loop_cut_short (n : nat) :
  forall page_token w w1 msg events fuel,
    cut_short list_page svc calendar_id page_token w msg w1 n ->
    n <= fuel ->
    list_events_loop list_page fuel svc calendar_id events page_token w
    = (Exc (HttpError msg), w1, replicate n (ListEvents svc calendar_id)).
Proof.
  induction n as [|n IH]; intros page_token w w1 msg events fuel Hc Hfuel.
  - inversion Hc.
  - destruct fuel as [|fuel]; [lia|].
    inversion Hc as [tok w' msg' w1' Hp|tok w' p w1' msg' w2' n' Hp Hmore Hrest];
      subst; simpl; unfold bind at 1; unfold request at 1; rewrite Hp.
    + reflexivity.
    + rewrite Hmore. rewrite (IH _ _ _ _ _ fuel Hrest) by lia. reflexivity.
Qed.

(** X17: [list_events] returns no partial list.  When the service fails
    on the [n]-th page of a listing, the loop ends in that [HttpError]
    after [n] requests: the events of the pages already read are not
    returned. *)
Theorem X17_list_events_page_failure :
  forall (n : nat) (w w1 : W) (msg : string) (fuel : nat),
    cut_short list_page svc calendar_id None w msg w1 n ->
    n <= fuel ->
    list_events_paged list_page fuel svc calendar_id w
    = (Exc (HttpError msg), w1, replicate n (ListEvents svc calendar_id)).
Proof.
  intros n w w1 msg fuel Hc Hfuel. unfold list_events_paged.
  apply list_events_loop_cut_short; assumption.
Qed.

End PagingFacts.

Lemma X16_list_events_drains_pages_witness :
  list_events_paged SamplePages.two_pages 5 "tokens/a.json" "primary" tt
  = (Val (Some (flat_map (fun p => default [] (items p))
                  [ {| items := Some [Sample.titled "e1" "Dentist"];
                       nextPageToken := Some "p2" |};
                    {| items := None; nextPageToken := Some "" |} ])), tt,
     replicate 2 (ListEvents "tokens/a.json" "primary")).
Proof.
  apply (X16_list_events_drains_pages SamplePages.two_pages "tokens/a.json"
           "primary"
           [ {| items := Some [Sample.titled "e1" "Dentist"];
                nextPageToken := Some "p2" |};
             {| items := None; nextPageToken := Some "" |} ] tt tt 5).
  - eapply served_next; [reflexivity|reflexivity|].
    apply served_last; reflexivity.
  - simpl. lia.
Defined.

Lemma X17_list_events_page_failure_witness :
  list_events_paged SamplePages.second_page_fails 5 "tokens/a.json" "primary" tt
  = (Exc (HttpError "503 backend error"), tt,
     replicate 2 (ListEvents "tokens/a.json" "primary")).
Proof.
  apply (X17_list_events_page_failure SamplePages.second_page_fails
           "tokens/a.json" "primary" 2 tt tt "503 backend error" 5).
  - eapply cut_later; [reflexivity|reflexivity|]. apply cut_now. reflexivity.
  - lia.
Defined.

(** ** The chain map *)

Lemma chain_append_keys (k k0 : string) (it : member) (m : chain_map) :
  In k (map fst (chain_append k0 it m)) <-> k = k0 \/ In k (map fst m).
Proof.
  induction m as [|[k1 its] m IH]; simpl.
  - intuition congruence.
  - destruct (String.eqb_spec k1 k0) as [->|Hne]; simpl.
    + intuition.
    + rewrite IH. intuition.
Qed.

Lemma chain_append_nodup (k0 : string) (it : member) (m : chain_map) :
  List.NoDup (map fst m) -> List.NoDup (map fst (chain_append k0 it m)).
Proof.
  induction m as [|[k1 its] m IH]; simpl; intros H.
  - constructor; [intros []|constructor].
  - apply List.NoDup_cons_iff in H as [Hk1 Hm].
    destruct (String.eqb_spec k1 k0) as [->|Hne]; simpl.
    + constructor; assumption.
    + constructor; [|apply IH, Hm].
      rewrite chain_append_keys. intros [E|E]; [congruence|contradiction].
Qed.

Lemma chain_items_append_same (k0 : string) (it : member) (m : chain_map) :
  chain_items k0 (chain_append k0 it m) = chain_items k0 m ++ [it].
Proof.
  unfold chain_items. induction m as [|[k1 its] m IH]; simpl.
  - rewrite String.eqb_refl. reflexivity.
  - destruct (String.eqb_spec k1 k0) as [->|Hne]; simpl.
    + rewrite String.eqb_refl. reflexivity.
    + destruct (String.eqb_spec k1 k0); [contradiction|exact IH].
Qed.

Lemma chain_items_append_other (k k0 : string) (it : member) (m : chain_map) :
  k <> k0 -> chain_items k (chain_append k0 it m) = chain_items k m.
Proof.
  intros Hne. unfold chain_items. induction m as [|[k1 its] m IH]; simpl.
  - destruct (String.eqb_spec k0 k); [congruence|reflexivity].
  - destruct (String.eqb_spec k1 k0) as [->|Hne1]; simpl.
    + destruct (String.eqb_spec k0 k); [congruence|reflexivity].
    + destruct (String.eqb_spec k1 k); [reflexivity|exact IH].
Qed.

Lemma chain_append_entries (k k0 : string) (its : list member) (it : member)
    (m : chain_map) :
  In (k, its) (chain_append k0 it m) ->
  In (k, its) m
  \/ (k = k0 /\ exists old, its = old ++ [it] /\ (old = [] \/ In (k0, old) m)).
Proof.
  induction m as [|[k1 its1] m IH]; simpl.
  - intros [E|[]]. inversion E; subst. right. split; [reflexivity|].
    exists []. auto.
  - destruct (String.eqb_spec k1 k0) as [->|Hne]; simpl.
    + intros [E|H]; [|auto]. inversion E; subst. right. split; [reflexivity|].
      exists its1. auto.
    + intros [E|H]; [auto|]. destruct (IH H) as [H1|(-> & old & -> & [->|H1])].
      * auto.
      * right. split; [reflexivity|]. exists []. auto.
      * right. split; [reflexivity|]. exists old. auto.
Qed.

(** X18: [chain_map.setdefault(chain_id, []).append(item)] keeps one
    entry per chain id (the key is added only when it is new), puts the
    member at the end of its chain, and leaves every other chain as it
    was. *)
Theorem X18_chain_append :
  forall (chain_id : string) (item : member) (m : chain_map),
    chain_items chain_id (chain_append chain_id item m)
    = chain_items chain_id m ++ [item]
    /\ (forall k, k <> chain_id ->
          chain_items k (chain_append chain_id item m) = chain_items k m)
    /\ (forall k, In k (map fst (chain_append chain_id item m))
                  <-> k = chain_id \/ In k (map fst m))
    /\ (List.NoDup (map fst m) ->
        List.NoDup (map fst (chain_append chain_id item m))).
Proof.
  intros chain_id item m. split; [apply chain_items_append_same|].
  split; [intros k Hk; apply chain_items_append_other, Hk|].
  split; [intros k; apply chain_append_keys|apply chain_append_nodup].
Qed.

Lemma X18_chain_append_witness :
  List.NoDup
    (map fst (chain_append "c2" ("A", Sample.origin_e1)
                [("c1", [("B", Sample.mirror "b1" "c1" "A")])])).
Proof.
  apply (proj2 (proj2 (proj2
           (X18_chain_append "c2" ("A", Sample.origin_e1)
              [("c1", [("B", Sample.mirror "b1" "c1" "A")])])))).
  repeat constructor. intros [].
Defined.

Section ClassifyInvariant.

Variables (cfg : config) (known_prefixes : list string).

Lemma chain_items_mono (k k0 : string) (it x : member) (m : chain_map) :
  In x (chain_items k m) -> In x (chain_items k (chain_append k0 it m)).
Proof.
  intros H. destruct (String.eqb_spec k k0) as [->|Hne].
  - rewrite chain_items_append_same. apply in_or_app. auto.
  - rewrite chain_items_append_other by exact Hne. exact H.
Qed.

Lemma classify_event_ok (nm : string) (st : chain_map * list member) (ev : event) :
  chains_ok (fst st) ->
  chains_ok (fst (classify_event cfg known_prefixes nm st ev)).
Proof.
  intros [Hnd Hall]. destruct st as [chains unsynced]. unfold classify_event.
  destruct (tracked_chain ev) as [k0|] eqn:Et.
  - simpl in *. split; [apply chain_append_nodup, Hnd|].
    intros k its Hin.
    apply chain_append_entries in Hin as [Hin|(-> & old & -> & Hold)].
    + apply Hall, Hin.
    + split; [destruct old; discriminate|].
      intros m Hm. apply in_app_or in Hm as [Hm|[<-|[]]]; [|exact Et].
      destruct Hold as [->|Hold]; [destruct Hm|].
      apply (Hall k0 old Hold), Hm.
  - destruct (should_skip_event ev cfg known_prefixes); split; assumption.
Qed.

Lemma classify_event_filed_mono (nm : string) (st : chain_map * list member)
    (ev : event) (m : member) :
  filed cfg known_prefixes st m ->
  filed cfg known_prefixes (classify_event cfg known_prefixes nm st ev) m.
Proof.
  unfold filed. destruct st as [chains unsynced]. unfold classify_event.
  destruct (tracked_chain ev) as [k0|];
    [|destruct (should_skip_event ev cfg known_prefixes)];
    destruct (tracked_chain (snd m)) as [k|]; simpl; intros H; try exact H.
  - apply chain_items_mono, H.
  - destruct H as [H|H]; [left; exact H|right; apply in_or_app; auto].
Qed.

Lemma classify_event_files (nm : string) (st : chain_map * list member)
    (ev : event) :
  filed cfg known_prefixes (classify_event cfg known_prefixes nm st ev) (nm, ev).
Proof.
  unfold filed. destruct st as [chains unsynced]. unfold classify_event. simpl.
  destruct (tracked_chain ev) as [k0|] eqn:Et; simpl.
  - rewrite chain_items_append_same. apply in_or_app. right. left. reflexivity.
  - destruct (should_skip_event ev cfg known_prefixes) eqn:Es; simpl;
      [left; reflexivity|].
    right. apply in_or_app. right. left. reflexivity.
Qed.

Lemma classify_events_invariant (nm : string) (evs : list event) :
  forall st : chain_map * list member,
    chains_ok (fst st) ->
    chains_ok (fst (fold_left (classify_event cfg known_prefixes nm) evs st))
    /\ (forall m, filed cfg known_prefixes st m ->
          filed cfg known_prefixes
            (fold_left (classify_event cfg known_prefixes nm) evs st) m)
    /\ (forall ev, In ev evs ->
          filed cfg known_prefixes
            (fold_left (classify_event cfg known_prefixes nm) evs st) (nm, ev)).
Proof.
  induction evs as [|e evs IH]; intros st Hok; simpl.
  - split; [exact Hok|]. split; [auto|intros ev []].
  - destruct (IH (classify_event cfg known_prefixes nm st e)
                (classify_event_ok nm st e Hok)) as (H1 & H2 & H3).
    split; [exact H1|]. split.
    + intros m Hm. apply H2, classify_event_filed_mono, Hm.
    + intros ev [<-|Hin]; [apply H2, classify_event_files|apply H3, Hin].
Qed.

Lemma classify_invariant (cal_events : gmap string (list event))
    (calendars : list calendar) :
  forall st : chain_map * list member,
    chains_ok (fst st) ->
    let st' :=
      fold_left
        (fun st c =>
           fold_left (classify_event cfg known_prefixes (name c))
             (default [] (cal_events !! name c)) st)
        calendars st in
    chains_ok (fst st')
    /\ (forall m, filed cfg known_prefixes st m -> filed cfg known_prefixes st' m)
    /\ (forall c ev, In c calendars ->
          In ev (default [] (cal_events !! name c)) ->
          filed cfg known_prefixes st' (name c, ev)).
Proof.
  induction calendars as [|c cs IH]; intros st Hok; simpl.
  - split; [exact Hok|]. split; [auto|intros c ev []].
  - destruct (classify_events_invariant (name c)
                (default [] (cal_events !! name c)) st Hok) as (H1 & H2 & H3).
    destruct (IH _ H1) as (G1 & G2 & G3).
    split; [exact G1|]. split.
    + intros m Hm. apply G2, H2, Hm.
    + intros c' ev [<-|Hin] Hev; [apply G2, H3, Hev|apply G3; assumption].
Qed.

End ClassifyInvariant.

(** X19: the classification loop loses no event and mixes no chains.
    In its result the chain map has one entry per chain id, no chain is
    empty and every member carries the id of its chain; every candidate
    is untracked and passed the filter; and every event listed for a
    configured calendar is accounted for: a tracked one is a member of
    the chain of its id, an untracked one is a candidate unless
    [should_skip_event] holds for it. *)
Theorem X19_classification_is_a_partition :
  forall (cfg : config) (known_prefixes : list string)
         (calendars : list calendar) (cal_events : gmap string (list event)),
    chains_ok (fst (classify cfg known_prefixes calendars cal_events))
    /\ Forall (candidate cfg known_prefixes)
         (snd (classify cfg known_prefixes calendars cal_events))
    /\ (forall c ev,
          In c calendars ->
          In ev (default [] (cal_events !! name c)) ->
          filed cfg known_prefixes
            (classify cfg known_prefixes calendars cal_events) (name c, ev)).
Proof.
  intros cfg kp calendars cal_events.
  assert (chains_ok (fst (([], []) : chain_map * list member))) as H0.
  { split; [constructor|intros k its []]. }
  destruct (classify_invariant cfg kp cal_events calendars ([], []) H0)
    as (H1 & _ & H3).
  split; [exact H1|]. split; [apply classify_candidates|exact H3].
Qed.

Lemma X19_classification_is_a_partition_witness :
  filed (with_keywords ["review"] Sample.cfg0) ["[A] "; "[B] "]
    (classify (with_keywords ["review"] Sample.cfg0) ["[A] "; "[B] "]
       Sample.two_calendars
       {[ "A" := [Sample.origin_e1; Sample.titled "e2" "Lunch"];
          "B" := [Sample.mirror "b1" "c1" "A"] ]})
    ("A", Sample.titled "e2" "Lunch").
Proof.
  apply (proj2 (proj2
           (X19_classification_is_a_partition
              (with_keywords ["review"] Sample.cfg0) ["[A] "; "[B] "]
              Sample.two_calendars
              {[ "A" := [Sample.origin_e1; Sample.titled "e2" "Lunch"];
                 "B" := [Sample.mirror "b1" "c1" "A"] ]}))
         Sample.calA (Sample.titled "e2" "Lunch")).
  - left. reflexivity.
  - vm_compute. right. left. reflexivity.
Defined.

(** ** Lookups that fail, and chains that have converged *)

Section Convergence.

Context {W : Type}.
Variable gw : Gateway W.
Variables (calendars : list calendar) (cfg : config) (chain_id : string).

(** X20: a lookup by chain id that fails is not caught.  In the
    reconciliation of a replica, and in the copy loop of the bootstrap
    for a replica other than the source, a failing lookup ends the step
    in that [HttpError] right after the request: no line is printed and
    the enclosing loops stop. *)
Theorem X20_lookup_failure_propagates :
  forall (source : member) (src_name : string) (ev : event) (c : calendar)
         (w w1 : W) (msg : string),
    gw_find gw (service c) (calendar_id c) chain_id w = (inl msg, w1) ->
    reconcile_calendar gw cfg chain_id source c w
    = (Exc (HttpError msg), w1,
       [FindByChain (service c) (calendar_id c) chain_id])
    /\ (name c <> src_name ->
        bootstrap_copy gw cfg src_name chain_id ev c w
        = (Exc (HttpError msg), w1,
           [FindByChain (service c) (calendar_id c) chain_id])).
Proof.
  intros [sn se] src_name ev c w w1 msg Hfind.
  assert (find_event_by_chain gw (service c) (calendar_id c) chain_id w
          = (Exc (HttpError msg), w1,
             [FindByChain (service c) (calendar_id c) chain_id])) as E
    by (rewrite find_event_by_chain_run, Hfind; reflexivity).
  split.
  - unfold reconcile_calendar. apply bind_exc, E.
  - intros Hne. unfold bootstrap_copy.
    destruct (String.eqb_spec (name c) src_name); [contradiction|].
    apply bind_exc, E.
Qed.

Lemma perform_safe_delete_live (items : list member) w :
  origin_present items ->
  perform_safe_delete gw calendars chain_id items cfg w = (Val false, w, []).
Proof.
  intros (o & it & H & Hin & Ho). unfold perform_safe_delete. rewrite H.
  destruct (Str.truthy o); [|reflexivity]. cbn [negb].
  rewrite (existsb_origin_present o items it Hin Ho). reflexivity.
Qed.

Lemma reconcile_settled (source : member) (c : calendar) w :
  settled gw cfg chain_id (snd source) c ->
  exists w1,
    reconcile_calendar gw cfg chain_id source c w
    = (Val tt, w1, [FindByChain (service c) (calendar_id c) chain_id]).
Proof.
  intros Hs. destruct (Hs w) as (target & rest & w1 & Hfind & Hsame & Hvis).
  exists w1.
  rewrite (reconcile_calendar_same gw cfg chain_id source c target rest w w1
             Hfind Hsame).
  rewrite force_visibility_same by exact Hvis. reflexivity.
Qed.

Lemma reconcile_loop_settled (source : member) (cs : list calendar) :
  Forall (settled gw cfg chain_id (snd source)) cs ->
  forall w, exists w1,
    for_each cs (reconcile_calendar gw cfg chain_id source) w
    = (Val tt, w1,
       map (fun c => FindByChain (service c) (calendar_id c) chain_id) cs).
Proof.
  induction 1 as [|c cs Hc _ IH]; intros w.
  - exists w. reflexivity.
  - destruct (reconcile_settled source c w Hc) as (w1 & E1).
    destruct (IH w1) as (w2 & E2). exists w2. simpl for_each.
    rewrite (bind_val _ _ w tt w1 _ E1), E2. reflexivity.
Qed.

(** X21: a pass over a converged chain writes nothing.  When the
    refreshed chain has a live origin and every configured replica holds
    a mirror with the content of the propagation source (location,
    description, start and end) and with its resolved visibility, the
    chain loop sends the gets of the refresh and one lookup per replica
    and nothing else: no insert, update, patch or delete, and no line is
    printed. *)
Theorem X21_converged_chain_is_left_alone :
  forall (items : list member) (first : member) (rest : list member)
         (w w1 : W) (log1 : list action),
    refresh gw calendars items w = (Val (first :: rest), w1, log1) ->
    origin_present (first :: rest) ->
    Forall (settled gw cfg chain_id (snd (max_by_updated first rest))) calendars ->
    exists w2,
      process_chain gw calendars cfg (chain_id, items) w
      = (Val tt, w2,
         log1 ++ map (fun c => FindByChain (service c) (calendar_id c) chain_id)
                   calendars)
      /\ writes (log1
                 ++ map (fun c => FindByChain (service c) (calendar_id c) chain_id)
                      calendars) = [].
Proof.
  intros items first rest w w1 log1 Hr Hlive Hset.
  destruct (reconcile_loop_settled (max_by_updated first rest) calendars Hset w1)
    as (w2 & E2).
  exists w2. split.
  - unfold process_chain. rewrite (bind_val _ _ w _ w1 log1 Hr).
    rewrite (bind_val _ _ w1 false w1 []
               (perform_safe_delete_live (first :: rest) w1 Hlive)).
    rewrite E2. reflexivity.
  - rewrite writes_app.
    pose proof (emits_refresh gw calendars items w) as Hg. rewrite Hr in Hg.
    rewrite (gets_write_nothing log1 Hg). simpl.
    clear. induction calendars as [|c cs IH]; [reflexivity|exact IH].
Qed.

End Convergence.

(** X22: a copy made by [create_copy] has the content of its source
    exactly when the sync note adds nothing to the description of the
    source (no note is configured, or the description already contains
    it).  In that case [update_if_diff] on the fresh copy sends nothing;
    otherwise it reports a change. *)
Theorem X22_fresh_copy_content :
  forall (source_event : event) (cfg : config) (origin_name chain_id : string),
    (same_content (clone_of source_event cfg origin_name chain_id) source_event
     <-> add_sync_note (default "" (ev_description source_event))
           (default "" (sync_tag_in_description cfg))
         = default "" (ev_description source_event))
    /\ (snd (diff_fields (clone_of source_event cfg origin_name chain_id)
               (canonical_event_dict source_event) cfg) = false
        <-> add_sync_note (default "" (ev_description source_event))
              (default "" (sync_tag_in_description cfg))
            = default "" (ev_description source_event)).
Proof.
  intros source_event cfg origin_name chain_id.
  assert (same_content (clone_of source_event cfg origin_name chain_id) source_event
          <-> add_sync_note (default "" (ev_description source_event))
                (default "" (sync_tag_in_description cfg))
              = default "" (ev_description source_event)) as Hiff.
  { unfold same_content, clone_of, set_private_meta. simpl. split.
    - intros (_ & Hd & _). congruence.
    - intros Hd. rewrite Hd. repeat split. }
  split; [exact Hiff|]. rewrite <- Hiff.
  pose proof (diff_fields_changed cfg
                (clone_of source_event cfg origin_name chain_id)
                (canonical_event_dict source_event)) as Hc.
  destruct (snd (diff_fields (clone_of source_event cfg origin_name chain_id)
                   (canonical_event_dict source_event) cfg)).
  - split; [discriminate|]. intros Hs. exfalso.
    apply (proj1 Hc eq_refl). exact Hs.
  - split; [|reflexivity]. intros _.
    destruct (decide (add_sync_note (default "" (ev_description source_event))
                        (default "" (sync_tag_in_description cfg))
                      = default "" (ev_description source_event))) as [Hd|Hd].
    + apply Hiff, Hd.
    + exfalso. assert (true = false -> False) by discriminate.
      destruct Hc as [_ Hc]. 
      assert (~ same_content (clone_of source_event cfg origin_name chain_id)
                (canonical_event_dict source_event)) as Hn.
      { intros Hs. apply Hd, Hiff. exact Hs. }
      specialize (Hc Hn). discriminate.
Qed.

Lemma X20_lookup_failure_propagates_witness :
  reconcile_calendar (Script.gateway Sample.lookup_fails) Sample.cfg0 "c1"
    ("A", Sample.origin_e1) Sample.calB tt
  = (Exc (HttpError "503 backend error"), tt,
     [FindByChain (service Sample.calB) (calendar_id Sample.calB) "c1"])
  /\ (name Sample.calB <> "A" ->
      bootstrap_copy (Script.gateway Sample.lookup_fails) Sample.cfg0 "A" "c1"
        Sample.origin_e1 Sample.calB tt
      = (Exc (HttpError "503 backend error"), tt,
         [FindByChain (service Sample.calB) (calendar_id Sample.calB) "c1"])).
Proof.
  apply (X20_lookup_failure_propagates (Script.gateway Sample.lookup_fails)
           Sample.cfg0 "c1" ("A", Sample.origin_e1) "A" Sample.origin_e1
           Sample.calB tt tt "503 backend error").
  reflexivity.
Defined.

Lemma X21_converged_chain_is_left_alone_witness :
  exists w2,
    process_chain
      (Script.gateway (Sample.chain_c1 (Sample.mirror "b1" "c1" "A") Sample.never))
      Sample.two_calendars Sample.cfg0
      ("c1", [("A", Sample.origin_e1); ("B", Sample.mirror "b1" "c1" "A")]) tt
    = (Val tt, w2,
       [GetEvent "tokens/a.json" "primary" "e1";
        GetEvent "tokens/b.json" "primary" "b1"]
       ++ map (fun c => FindByChain (service c) (calendar_id c) "c1")
            Sample.two_calendars)
    /\ writes
         ([GetEvent "tokens/a.json" "primary" "e1";
           GetEvent "tokens/b.json" "primary" "b1"]
          ++ map (fun c => FindByChain (service c) (calendar_id c) "c1")
               Sample.two_calendars) = [].
Proof.
  apply (X21_converged_chain_is_left_alone
           (Script.gateway
              (Sample.chain_c1 (Sample.mirror "b1" "c1" "A") Sample.never))
           Sample.two_calendars Sample.cfg0 "c1"
           [("A", Sample.origin_e1); ("B", Sample.mirror "b1" "c1" "A")]
           ("A", Sample.origin_e1) [("B", Sample.mirror "b1" "c1" "A")] tt tt).
  - vm_compute. reflexivity.
  - exists "A", ("A", Sample.origin_e1).
    split; [vm_compute; reflexivity|]. split; [left; reflexivity|reflexivity].
  - constructor; [|constructor; [|constructor]]; intros [].
    + exists Sample.origin_e1, [], tt.
      split; [vm_compute; reflexivity|]. split; [|reflexivity].
      vm_compute. repeat split.
    + exists (Sample.mirror "b1" "c1" "A"), [], tt.
      split; [vm_compute; reflexivity|]. split; [|reflexivity].
      vm_compute. repeat split.
Defined.
